(** * Autocomplete field (react_autocomplete): model and verified properties

    The repository holds four near-duplicate versions of one React
    component, [App]:

    - [src/unnamed/part_000] and [src/unnamed/part_002] (the same code, the
      second with comments): the richer version, with a separate
      [isDropdownOpen] flag, a [lastAppliedValueRef] and an [onSelected]
      prop.  It is embedded in [Module Rich], and the numbered properties
      C1 to C10 are stated and proved there.
    - [src/unnamed/part_001]: the middle version ([Module Mid]).
    - [src/src/App.tsx]: the simplest version ([Module Simple]).
      For these two the lemmas record where they behave like the richer
      version and where they do not.

    Strings are JavaScript strings, that is sequences of UTF-16 code units.
    [String.prototype.trim] and [String.prototype.includes] are written out;
    [String.prototype.toLowerCase] (the Unicode case mapping) and the roster
    [peopleFromServer] (the data file is not part of the sources) are
    parameters of the development.

    A handler of a React component reads the state of the render it was
    created in and queues its writes; the component is rendered again before
    the next event.  So a handler is a function of the rendered state [r]
    whose writes go to the mounted component, and an event applies the
    handler of the current state.

    [lodash.debounce(f, wait)] with its default options passes on the
    argument of the last call once [wait] milliseconds have gone by without
    a further call; [cancel] drops a pending call.  The mounted component
    holds the pending argument and the time left, and the event [Elapse ms]
    lets [ms] milliseconds go by between two user events. *)

From Stdlib Require Import List NArith ZArith Bool Lia String Ascii.
Import ListNotations.

(** ** JavaScript strings *)

(** A string value: its UTF-16 code units. *)
Definition jsstring : Type := list N.

(** An ASCII literal as a JavaScript string. *)
Definition str (s : string) : jsstring :=
  map N_of_ascii (list_ascii_of_string s).

(** [a === b] on strings. *)
Fixpoint strictEq (a b : jsstring) : bool :=
  match a, b with
  | [], [] => true
  | x :: a', y :: b' => N.eqb x y && strictEq a' b'
  | _, _ => false
  end.

(** The code units [trim] strips: ECMAScript WhiteSpace and LineTerminator.
    All of them are in the Basic Multilingual Plane, so the test is on one
    code unit. *)
Definition isWhiteSpace (c : N) : bool :=
  ((9 <=? c) && (c <=? 13)            (* TAB, LF, VT, FF, CR *)
   || (c =? 32)                       (* SPACE *)
   || (c =? 160)                      (* NO-BREAK SPACE *)
   || (c =? 5760)                     (* OGHAM SPACE MARK *)
   || (8192 <=? c) && (c <=? 8202)    (* EN QUAD .. HAIR SPACE *)
   || (c =? 8232) || (c =? 8233)      (* LINE / PARAGRAPH SEPARATOR *)
   || (c =? 8239)                     (* NARROW NO-BREAK SPACE *)
   || (c =? 8287)                     (* MEDIUM MATHEMATICAL SPACE *)
   || (c =? 12288)                    (* IDEOGRAPHIC SPACE *)
   || (c =? 65279))%N.                (* ZERO WIDTH NO-BREAK SPACE *)

Fixpoint trimStart (s : jsstring) : jsstring :=
  match s with
  | [] => []
  | c :: rest => if isWhiteSpace c then trimStart rest else s
  end.

Definition trimEnd (s : jsstring) : jsstring := rev (trimStart (rev s)).

(** [s.trim()] *)
Definition trim (s : jsstring) : jsstring := trimEnd (trimStart s).

(** [s.startsWith(t)] *)
Fixpoint startsWith (s t : jsstring) {struct t} : bool :=
  match t, s with
  | [], _ => true
  | _ :: _, [] => false
  | y :: t', x :: s' => N.eqb x y && startsWith s' t'
  end.

(** [s.includes(t)]: [t] occurs in [s] at some position. *)
Fixpoint includes (s t : jsstring) : bool :=
  startsWith s t ||
  match s with
  | [] => false
  | _ :: s' => includes s' t
  end.

(** What [includes] decides: [t] is a contiguous part of [s]. *)
Definition Substring (t s : jsstring) : Prop :=
  exists before after, s = before ++ t ++ after.

(** [small] keeps some elements of [big], in the order [big] has them. *)
Inductive Subseq {A : Type} : list A -> list A -> Prop :=
| Subseq_nil : Subseq [] []
| Subseq_skip : forall x small big, Subseq small big -> Subseq small (x :: big)
| Subseq_keep : forall x small big, Subseq small big -> Subseq (x :: small) (x :: big).

(** ** Candidates *)

(** Modelled from the spec: the declaration [types/Person] is not among the
    sources.  The component reads [name], [born], [died] and uses [slug] as
    the React key. *)
Record Person : Type := mkPerson {
  name : jsstring;
  born : Z;
  died : Z;
  slug : jsstring
}.

(** ** Handlers as computations

    A handler is a computation on the mounted component [W]: it ends with a
    result and the component's new contents, or throws. *)

Inductive JsError : Type := TypeError.

Inductive Outcome (W A : Type) : Type :=
| Done (a : A) (w : W)
| Thrown (e : JsError).

Arguments Done {W A} a w.
Arguments Thrown {W A} e.

Definition M (W A : Type) : Type := W -> Outcome W A.

Definition ret {W A : Type} (a : A) : M W A := fun w => Done a w.

Definition bind {W A B : Type} (m : M W A) (k : A -> M W B) : M W B :=
  fun w => match m w with
           | Done a w' => k a w'
           | Thrown e => Thrown e
           end.

Definition throw {W A : Type} (e : JsError) : M W A := fun _ => Thrown e.

Declare Scope handler_scope.
Delimit Scope handler_scope with handler.
Notation "m ;; k" := (bind m (fun _ => k))
  (at level 61, right associativity) : handler_scope.
Notation "x <- m ;; k" := (bind m (fun x => k))
  (at level 61, m at next level, right associativity) : handler_scope.
Open Scope handler_scope.

(** [typeof v === 'function'] for an optional prop. *)
Definition typeofFunction {A : Type} (v : option A) : bool :=
  match v with
  | Some _ => true
  | None => false
  end.

(** [toLowerCase] on strings of ASCII code units, to run the examples. *)
Definition toLowerCaseAscii (s : jsstring) : jsstring :=
  map (fun c => if ((65 <=? c) && (c <=? 90))%N then (c + 32)%N else c) s.

(** ** Lemmas on strings *)

Lemma strictEq_spec (a b : jsstring) : reflect (a = b) (strictEq a b).
Proof.
  revert b; induction a as [|x a IH]; intros [|y b]; simpl;
    try (constructor; congruence).
  destruct (N.eqb_spec x y) as [->|Hne]; simpl.
  - destruct (IH b) as [->|Hne]; constructor; congruence.
  - constructor; congruence.
Qed.

Lemma strictEq_refl (a : jsstring) : strictEq a a = true.
Proof. destruct (strictEq_spec a a); congruence. Qed.

Lemma strictEq_neq (a b : jsstring) : a <> b -> strictEq a b = false.
Proof. destruct (strictEq_spec a b); congruence. Qed.

Lemma startsWith_spec (s t : jsstring) :
  startsWith s t = true <-> exists after, s = t ++ after.
Proof.
  revert s; induction t as [|y t IH]; intros s; simpl.
  - split; [exists s; reflexivity | reflexivity].
  - destruct s as [|x s].
    + split; [discriminate | intros [after H]; discriminate].
    + rewrite andb_true_iff, N.eqb_eq, IH. split.
      * intros [-> [after ->]]. exists after; reflexivity.
      * intros [after H]. injection H as -> ->. split; [reflexivity | eauto].
Qed.

Lemma includes_spec (s t : jsstring) :
  includes s t = true <-> Substring t s.
Proof.
  unfold Substring. induction s as [|x s IH]; simpl.
  - rewrite orb_false_r, startsWith_spec. split.
    + intros [after H]. exists [], after. exact H.
    + intros [before [after H]]. destruct before; [eauto | discriminate].
  - rewrite orb_true_iff, startsWith_spec, IH. split.
    + intros [[after H] | [before [after H]]].
      * exists [], after. exact H.
      * exists (x :: before), after. simpl. now rewrite H.
    + intros [[|b before] [after H]].
      * left. exists after. exact H.
      * right. injection H as -> H. eauto.
Qed.

Lemma includes_empty (s : jsstring) : includes s [] = true.
Proof. destruct s; reflexivity. Qed.

Lemma trim_empty : trim [] = [].
Proof. reflexivity. Qed.

Lemma filter_Subseq {A : Type} (f : A -> bool) (l : list A) :
  Subseq (filter f l) l.
Proof.
  induction l as [|x l IH]; simpl.
  - constructor.
  - destruct (f x); now constructor.
Qed.

Lemma filter_all {A : Type} (f : A -> bool) (l : list A) :
  (forall x, In x l -> f x = true) -> filter f l = l.
Proof.
  induction l as [|x l IH]; simpl; intros H.
  - reflexivity.
  - rewrite (H x (or_introl eq_refl)). f_equal. apply IH. intros y Hy.
    apply H. now right.
Qed.

Example trim_strips_both_ends :
  trim (str "  al ice ") = str "al ice"
  /\ trim [9; 160; 8232; 65; 12288; 65279]%N = [65%N]
  /\ trim (str "   ") = [].
Proof. repeat split. Qed.

Example includes_finds_inner_parts :
  includes (str "alice") (str "lic") = true
  /\ includes (str "alice") (str "lie") = false
  /\ includes (str "alice") [] = true
  /\ includes [] (str "a") = false.
Proof. repeat split. Qed.

(** ** More on [trim] and [includes] *)

Lemma trimStart_fixed (s : jsstring) : trimStart (trimStart s) = trimStart s.
Proof.
  induction s as [|c s IH]; simpl; [reflexivity|].
  destruct (isWhiteSpace c) eqn:Hc; [exact IH|]. simpl. rewrite Hc. reflexivity.
Qed.

Lemma trimStart_empty_iff (s : jsstring) :
  trimStart s = [] <-> forallb isWhiteSpace s = true.
Proof.
  induction s as [|c s IH]; simpl; [tauto|].
  destruct (isWhiteSpace c); simpl; [exact IH|]. split; discriminate.
Qed.

Lemma trimStart_split (s : jsstring) :
  exists before, s = before ++ trimStart s
                 /\ forallb isWhiteSpace before = true.
Proof.
  induction s as [|c s (before & Heq & Hws)]; simpl.
  - exists []. split; reflexivity.
  - destruct (isWhiteSpace c) eqn:Hc.
    + exists (c :: before). simpl. rewrite Hc, Hws. split; [congruence | reflexivity].
    + exists []. split; reflexivity.
Qed.

Lemma trimStart_app (l m : jsstring) :
  trimStart (l ++ m) =
  match trimStart l with
  | [] => trimStart m
  | _ :: _ => trimStart l ++ m
  end.
Proof.
  induction l as [|c l IH]; simpl; [reflexivity|].
  destruct (isWhiteSpace c); [exact IH | reflexivity].
Qed.

Lemma forallb_rev {A : Type} (f : A -> bool) (l : list A) :
  forallb f (rev l) = forallb f l.
Proof.
  induction l as [|x l IH]; simpl; [reflexivity|].
  rewrite forallb_app, IH. simpl. rewrite andb_true_r. apply andb_comm.
Qed.

Lemma trimEnd_fixed (s : jsstring) : trimEnd (trimEnd s) = trimEnd s.
Proof. unfold trimEnd. rewrite rev_involutive, trimStart_fixed. reflexivity. Qed.

Lemma trimEnd_split (s : jsstring) :
  exists after, s = trimEnd s ++ after /\ forallb isWhiteSpace after = true.
Proof.
  destruct (trimStart_split (rev s)) as (before & Heq & Hws).
  exists (rev before). split.
  - unfold trimEnd. rewrite <- rev_app_distr, <- Heq, rev_involutive.
    reflexivity.
  - rewrite forallb_rev. exact Hws.
Qed.

(** Trimming the end of a string that starts with no white space leaves a
    string that starts with no white space. *)
Lemma trimStart_trimEnd (t : jsstring) :
  trimStart t = t -> trimStart (trimEnd t) = trimEnd t.
Proof.
  destruct t as [|c t]; [reflexivity|]. simpl.
  destruct (isWhiteSpace c) eqn:Hc.
  - intros Hbad. exfalso.
    destruct (trimStart_split t) as (before & Heq & _).
    apply (f_equal (@List.length N)) in Hbad.
    rewrite Heq in Hbad at 2. simpl in Hbad. rewrite length_app in Hbad. lia.
  - intros _. unfold trimEnd. simpl rev. rewrite trimStart_app.
    assert (Hlast : exists u, match trimStart (rev t) with
                              | [] => trimStart [c]
                              | _ :: _ => trimStart (rev t) ++ [c]
                              end = u ++ [c]).
    { destruct (trimStart (rev t)) as [|x u].
      - exists []. simpl. rewrite Hc. reflexivity.
      - exists (x :: u). reflexivity. }
    destruct Hlast as [u ->]. rewrite rev_app_distr. simpl. rewrite Hc.
    reflexivity.
Qed.

Lemma trim_fixed (s : jsstring) : trim (trim s) = trim s.
Proof.
  unfold trim.
  rewrite (trimStart_trimEnd (trimStart s) (trimStart_fixed s)).
  apply trimEnd_fixed.
Qed.

Lemma trim_empty_iff (s : jsstring) :
  trim s = [] <-> forallb isWhiteSpace s = true.
Proof.
  unfold trim, trimEnd. split.
  - intros Hempty.
    apply (f_equal (@rev N)) in Hempty. rewrite rev_involutive in Hempty.
    simpl in Hempty. apply trimStart_empty_iff in Hempty.
    rewrite forallb_rev in Hempty.
    destruct (trimStart_split s) as (before & Heq & Hws).
    rewrite Heq, forallb_app, Hws, Hempty. reflexivity.
  - intros Hws. apply trimStart_empty_iff in Hws. rewrite Hws. reflexivity.
Qed.

(** X1. [trim] removes white space from both ends and nothing else: the
    string is some white space, then the trimmed string, then some white
    space; the trimmed string neither starts nor ends with white space (it is
    left alone by [trimStart] and by [trimEnd]); trimming twice is trimming
    once; and the result is empty exactly when every code unit is white
    space. *)
Theorem trim_characterised (s : jsstring) :
  (exists before after,
     s = before ++ trim s ++ after
     /\ forallb isWhiteSpace before = true
     /\ forallb isWhiteSpace after = true)
  /\ trimStart (trim s) = trim s
  /\ trimEnd (trim s) = trim s
  /\ trim (trim s) = trim s
  /\ (trim s = [] <-> forallb isWhiteSpace s = true).
Proof.
  split; [|split; [|split; [|split]]].
  - destruct (trimStart_split s) as (before & Hs & Hbefore).
    destruct (trimEnd_split (trimStart s)) as (after & Ht & Hafter).
    exists before, after. split; [|split; assumption].
    unfold trim. rewrite <- Ht. exact Hs.
  - unfold trim. apply trimStart_trimEnd, trimStart_fixed.
  - unfold trim. apply trimEnd_fixed.
  - apply trim_fixed.
  - apply trim_empty_iff.
Qed.

Lemma Substring_refl (s : jsstring) : Substring s s.
Proof. exists [], []. rewrite app_nil_r. reflexivity. Qed.

Lemma Substring_trans (a b c : jsstring) :
  Substring a b -> Substring b c -> Substring a c.
Proof.
  intros (p1 & q1 & ->) (p2 & q2 & ->).
  exists (p2 ++ p1), (q1 ++ q2). rewrite <- !app_assoc. reflexivity.
Qed.

Lemma includes_trans (s t u : jsstring) :
  includes s t = true -> includes t u = true -> includes s u = true.
Proof.
  rewrite !includes_spec. intros Hts Hut. exact (Substring_trans _ _ _ Hut Hts).
Qed.

Lemma filter_Subseq_mono {A : Type} (f g : A -> bool) (l : list A) :
  (forall x, f x = true -> g x = true) ->
  Subseq (filter f l) (filter g l).
Proof.
  intros Himp. induction l as [|x l IH]; simpl; [constructor|].
  destruct (f x) eqn:Hf.
  - rewrite (Himp x Hf). now constructor.
  - destruct (g x); [now constructor | exact IH].
Qed.

Lemma Subseq_nil_l {A : Type} (big : list A) : Subseq [] big.
Proof. induction big; constructor; assumption. Qed.

Lemma Subseq_In {A : Type} (small big : list A) :
  Subseq small big -> forall x, In x small -> In x big.
Proof.
  induction 1 as [|y small big _ IH|y small big _ IH]; intros x Hin.
  - exact Hin.
  - right. apply IH, Hin.
  - destruct Hin as [->|Hin]; [left; reflexivity | right; apply IH, Hin].
Qed.

(** ** A small roster for the examples *)

Definition alice : Person :=
  {| name := str "Alice"; born := 1; died := 2; slug := str "alice-1" |}.

Definition bob : Person :=
  {| name := str "Bob"; born := 3; died := 4; slug := str "bob-3" |}.

Definition roster : list Person := [alice; bob].

(** ** The richer version ([src/unnamed/part_000], [src/unnamed/part_002]) *)

Module Rich.
Section Component.

(** The embedding context an [onSelected] callback acts on. *)
Context {Host : Type}.

(** [String.prototype.toLowerCase]. *)
Variable toLowerCase : jsstring -> jsstring.

(** The roster imported from [./data/people]. *)
Variable peopleFromServer : list Person.

(** [type Props]: both props are optional. *)
Record Props : Type := mkProps {
  debounceDelay : option N;
  onSelected : option (Person -> Host -> Host)
}.

Variable props : Props.

(** The destructuring default [debounceDelay = 300]. *)
Definition delay : N :=
  match debounceDelay props with
  | Some ms => ms
  | None => 300%N
  end.

(** The five [useState] cells. *)
Record State : Type := mkState {
  selectedItem : option Person;
  isInputFocused : bool;
  query : jsstring;
  appliedQuery : jsstring;
  isDropdownOpen : bool
}.

(** A mounted component: its state cells, the [useRef] cell, the timer of the
    debounced function (the argument of the last call and the milliseconds
    left before it is passed on), the embedding context, and the history of
    the values [setAppliedQuery] was called with (oldest first). *)
Record World : Type := mkWorld {
  cells : State;
  lastAppliedValueRef : jsstring;
  timer : option (jsstring * N);
  host : Host;
  appliedLog : list jsstring
}.

Definition initialState : State :=
  {| selectedItem := None; isInputFocused := false; query := [];
     appliedQuery := []; isDropdownOpen := false |}.

Definition mount (h : Host) : World :=
  {| cells := initialState; lastAppliedValueRef := []; timer := None;
     host := h; appliedLog := [] |}.

(** *** Writes to the mounted component *)

Definition updateCells (f : State -> State) : M World unit :=
  fun w => Done tt {| cells := f (cells w);
                      lastAppliedValueRef := lastAppliedValueRef w;
                      timer := timer w; host := host w;
                      appliedLog := appliedLog w |}.

Definition setSelectedItem (v : option Person) : M World unit :=
  updateCells (fun s =>
    {| selectedItem := v; isInputFocused := isInputFocused s; query := query s;
       appliedQuery := appliedQuery s; isDropdownOpen := isDropdownOpen s |}).

Definition setIsInputFocused (v : bool) : M World unit :=
  updateCells (fun s =>
    {| selectedItem := selectedItem s; isInputFocused := v; query := query s;
       appliedQuery := appliedQuery s; isDropdownOpen := isDropdownOpen s |}).

Definition setQuery (v : jsstring) : M World unit :=
  updateCells (fun s =>
    {| selectedItem := selectedItem s; isInputFocused := isInputFocused s;
       query := v; appliedQuery := appliedQuery s;
       isDropdownOpen := isDropdownOpen s |}).

Definition setIsDropdownOpen (v : bool) : M World unit :=
  updateCells (fun s =>
    {| selectedItem := selectedItem s; isInputFocused := isInputFocused s;
       query := query s; appliedQuery := appliedQuery s; isDropdownOpen := v |}).

(** [setAppliedQuery v] writes the cell and is recorded in the history. *)
Definition setAppliedQuery (v : jsstring) : M World unit :=
  fun w =>
    let s := cells w in
    Done tt {| cells := {| selectedItem := selectedItem s;
                           isInputFocused := isInputFocused s;
                           query := query s; appliedQuery := v;
                           isDropdownOpen := isDropdownOpen s |};
               lastAppliedValueRef := lastAppliedValueRef w;
               timer := timer w; host := host w;
               appliedLog := appliedLog w ++ [v] |}.

(** [lastAppliedValueRef.current] read and written. *)
Definition readLastApplied : M World jsstring :=
  fun w => Done (lastAppliedValueRef w) w.

Definition writeLastApplied (v : jsstring) : M World unit :=
  fun w => Done tt {| cells := cells w; lastAppliedValueRef := v;
                      timer := timer w; host := host w;
                      appliedLog := appliedLog w |}.

Definition setTimer (t : option (jsstring * N)) : M World unit :=
  fun w => Done tt {| cells := cells w;
                      lastAppliedValueRef := lastAppliedValueRef w;
                      timer := t; host := host w;
                      appliedLog := appliedLog w |}.

(** Calling a prop: a [TypeError] when it is [undefined]. *)
Definition callProp (f : option (Person -> Host -> Host)) (person : Person)
  : M World unit :=
  match f with
  | Some g => fun w => Done tt {| cells := cells w;
                                  lastAppliedValueRef := lastAppliedValueRef w;
                                  timer := timer w; host := g person (host w);
                                  appliedLog := appliedLog w |}
  | None => throw TypeError
  end.

(** *** The component *)

(** [useMemo(..., [appliedQuery, isInputFocused])] *)
Definition filteredPeople (r : State) : list Person :=
  let trimmed := trim (appliedQuery r) in
  if isInputFocused r && strictEq trimmed [] then peopleFromServer
  else filter (fun person =>
                 includes (toLowerCase (name person)) (toLowerCase trimmed))
              peopleFromServer.

(** The test of the [filter] call above, for an applied query [q]. *)
Definition nameIncludes (q : jsstring) (person : Person) : bool :=
  includes (toLowerCase (name person)) (toLowerCase (trim q)).

(** The function handed to [debounce]. *)
Definition applyValue (value : jsstring) : M World unit :=
  current <- readLastApplied ;;
  if negb (strictEq current value) then
    setAppliedQuery value ;;
    writeLastApplied value
  else ret tt.

(** [debouncedApply(value)]: lodash's trailing-edge debounce.  Every call
    replaces the pending argument and restarts the wait. *)
Definition debouncedApply (value : jsstring) : M World unit :=
  setTimer (Some (value, delay)).

(** [debouncedApply.cancel()] *)
Definition debouncedApply_cancel : M World unit := setTimer None.

(** [ms] milliseconds pass without any event: a pending call whose wait has
    run out is passed on to [applyValue]. *)
Definition elapse (ms : N) : M World unit :=
  fun w =>
    match timer w with
    | Some (value, remaining) =>
        if (remaining <=? ms)%N then (setTimer None ;; applyValue value) w
        else setTimer (Some (value, (remaining - ms)%N)) w
    | None => Done tt w
    end.

(** The handlers close over the values of the render [r] they were created
    in; their writes go to the mounted component. *)
Definition handleQueryChange (r : State) (next : jsstring) : M World unit :=
  let trimmed := trim next in
  setQuery next ;;
  match selectedItem r with
  | Some item =>
      if negb (strictEq (trim (name item)) trimmed) then setSelectedItem None
      else ret tt
  | None => ret tt
  end ;;
  if strictEq trimmed [] then
    setAppliedQuery [] ;;
    setIsDropdownOpen (isInputFocused r)
  else
    debouncedApply next ;;
    setIsDropdownOpen true.

Definition handleFocus (r : State) : M World unit :=
  setIsInputFocused true ;;
  setIsDropdownOpen true ;;
  if strictEq (trim (query r)) [] then setAppliedQuery [] else ret tt.

Definition handleBlur : M World unit :=
  setIsInputFocused false ;;
  setIsDropdownOpen false.

Definition handlePersonSelected (person : Person) : M World unit :=
  setSelectedItem (Some person) ;;
  setQuery (name person) ;;
  setAppliedQuery (name person) ;;
  setIsInputFocused false ;;
  setIsDropdownOpen false ;;
  if typeofFunction (onSelected props) then callProp (onSelected props) person
  else ret tt.

(** [const isOpen = isInputFocused && isDropdownOpen] *)
Definition isOpen (r : State) : bool := isInputFocused r && isDropdownOpen r.

(** What a render shows. *)
Inductive Title : Type :=
| NoSelectedPerson
| PersonTitle (personName : jsstring) (personBorn personDied : Z).

Record View : Type := mkView {
  title : Title;
  dropdownIsActive : bool;          (* the [is-active] class *)
  inputValue : jsstring;
  suggestionItems : list Person;    (* the [suggestion-item] rows *)
  noSuggestionsMessage : bool       (* the [no-suggestions-message] row *)
}.

Definition render (r : State) : View :=
  {| title := match selectedItem r with
              | Some item => PersonTitle (name item) (born item) (died item)
              | None => NoSelectedPerson
              end;
     dropdownIsActive := isOpen r;
     inputValue := query r;
     suggestionItems :=
       if (0 <? List.length (filteredPeople r)) && isOpen r then filteredPeople r
       else [];
     noSuggestionsMessage := isOpen r && (List.length (filteredPeople r) =? 0) |}.

(** *** Events *)

Inductive Event : Type :=
| Change (next : jsstring)      (* [onChange] of the input *)
| Focus                         (* [onFocus] *)
| Blur                          (* [onBlur] *)
| MouseDown (person : Person)   (* [onMouseDown] of a suggestion *)
| Elapse (ms : N)               (* time passes *)
| Unmount.                      (* the effect's cleanup *)

Definition step (e : Event) : M World unit :=
  fun w =>
    match e with
    | Change next => handleQueryChange (cells w) next w
    | Focus => handleFocus (cells w) w
    | Blur => handleBlur w
    | MouseDown person => handlePersonSelected person w
    | Elapse ms => elapse ms w
    | Unmount => debouncedApply_cancel w
    end.

Fixpoint run (es : list Event) : M World unit :=
  match es with
  | [] => ret tt
  | e :: rest => step e ;; run rest
  end.

Inductive reachable : World -> Prop :=
| reachable_mount : forall h, reachable (mount h)
| reachable_step : forall w e w',
    reachable w -> step e w = Done tt w' -> reachable w'.

(** A burst of typing: a first text, then texts each [gap] ms after the one
    before. *)
Fixpoint burst (first : jsstring) (rest : list (N * jsstring)) : list Event :=
  match rest with
  | [] => [Change first]
  | (gap, next) :: rest' => Change first :: Elapse gap :: burst next rest'
  end.

Fixpoint lastTyped (first : jsstring) (rest : list (N * jsstring)) : jsstring :=
  match rest with
  | [] => first
  | (_, next) :: rest' => lastTyped next rest'
  end.

(** *** The filter *)

(** ["".toLowerCase() === ""] *)
Hypothesis toLowerCase_empty : toLowerCase [] = [].

Lemma filteredPeople_is_filter (r : State) :
  filteredPeople r = filter (nameIncludes (appliedQuery r)) peopleFromServer.
Proof.
  unfold filteredPeople, nameIncludes.
  destruct (isInputFocused r); simpl; [|reflexivity].
  destruct (strictEq_spec (trim (appliedQuery r)) []) as [Hblank|_];
    [|reflexivity].
  rewrite Hblank, toLowerCase_empty. symmetry. apply filter_all.
  intros person _. apply includes_empty.
Qed.

Lemma filteredPeople_blank (r : State) :
  trim (appliedQuery r) = [] -> filteredPeople r = peopleFromServer.
Proof.
  intros Hblank. rewrite filteredPeople_is_filter. apply filter_all.
  intros person _. unfold nameIncludes.
  rewrite Hblank, toLowerCase_empty. apply includes_empty.
Qed.

(** C1 (amended). In the richer version, for every applied query [q] and
    either focus state, the filter
    returns exactly the candidates whose lower-cased name contains the
    lower-cased [trim q] as a substring, in the order of the roster: it is
    the stable [filter] of the roster by that test, so a person is in the
    result exactly when it is in the roster and matches, and the result is
    an order-preserving selection of the roster.  When the input is focused
    and [trim q] is empty the result is the whole roster. *)
Theorem filteredPeople_exact (r : State) :
  filteredPeople r = filter (nameIncludes (appliedQuery r)) peopleFromServer
  /\ (forall person,
        nameIncludes (appliedQuery r) person = true <->
        Substring (toLowerCase (trim (appliedQuery r)))
                  (toLowerCase (name person)))
  /\ (forall person,
        In person (filteredPeople r) <->
        In person peopleFromServer /\
        Substring (toLowerCase (trim (appliedQuery r)))
                  (toLowerCase (name person)))
  /\ Subseq (filteredPeople r) peopleFromServer
  /\ (isInputFocused r = true -> trim (appliedQuery r) = [] ->
      filteredPeople r = peopleFromServer).
Proof.
  assert (Htest : forall person,
            nameIncludes (appliedQuery r) person = true <->
            Substring (toLowerCase (trim (appliedQuery r)))
                      (toLowerCase (name person)))
    by (intros person; apply includes_spec).
  split; [apply filteredPeople_is_filter|].
  split; [exact Htest|].
  split; [|split].
  - intros person. rewrite filteredPeople_is_filter, filter_In, Htest.
    reflexivity.
  - rewrite filteredPeople_is_filter. apply filter_Subseq.
  - intros _. apply filteredPeople_blank.
Qed.

(** C10. Whenever [trim appliedQuery] is empty the filter returns the whole
    roster, focused or not; the focused-and-empty branch returns what the
    [filter] call would have returned; and two renders with the same
    [appliedQuery] have the same filter result whatever their focus. *)
Theorem filteredPeople_ignores_focus (r : State) :
  (trim (appliedQuery r) = [] -> filteredPeople r = peopleFromServer)
  /\ filteredPeople r = filter (nameIncludes (appliedQuery r)) peopleFromServer
  /\ (forall r', appliedQuery r' = appliedQuery r ->
                 filteredPeople r' = filteredPeople r).
Proof.
  split; [apply filteredPeople_blank|].
  split; [apply filteredPeople_is_filter|].
  intros r' Hsame. rewrite !filteredPeople_is_filter, Hsame. reflexivity.
Qed.

(** *** The handlers *)

Ltac open_handlers :=
  unfold run, step, handleQueryChange, handleFocus, handleBlur,
    handlePersonSelected, elapse, applyValue, debouncedApply,
    debouncedApply_cancel, callProp, typeofFunction, setSelectedItem,
    setQuery, setAppliedQuery, setIsInputFocused, setIsDropdownOpen,
    updateCells, readLastApplied, writeLastApplied, setTimer, bind, ret,
    throw, isOpen in *.

Lemma handlePersonSelected_runs (person : Person) (w : World) :
  handlePersonSelected person w =
  Done tt {| cells := {| selectedItem := Some person; isInputFocused := false;
                         query := name person; appliedQuery := name person;
                         isDropdownOpen := false |};
             lastAppliedValueRef := lastAppliedValueRef w;
             timer := timer w;
             host := match onSelected props with
                     | Some f => f person (host w)
                     | None => host w
                     end;
             appliedLog := appliedLog w ++ [name person] |}.
Proof.
  open_handlers. destruct (onSelected props); reflexivity.
Qed.

Lemma handleQueryChange_blank_runs (w : World) (next : jsstring) :
  trim next = [] ->
  handleQueryChange (cells w) next w =
  Done tt {| cells := {| selectedItem :=
                           match selectedItem (cells w) with
                           | Some item =>
                               if strictEq (trim (name item)) []
                               then Some item else None
                           | None => None
                           end;
                         isInputFocused := isInputFocused (cells w);
                         query := next; appliedQuery := [];
                         isDropdownOpen := isInputFocused (cells w) |};
             lastAppliedValueRef := lastAppliedValueRef w;
             timer := timer w; host := host w;
             appliedLog := appliedLog w ++ [[]] |}.
Proof.
  intros Hblank. open_handlers. rewrite Hblank. simpl.
  destruct (selectedItem (cells w)) as [item|]; [|reflexivity].
  destruct (strictEq (trim (name item)) []); reflexivity.
Qed.

Lemma handleQueryChange_text_runs (w : World) (next : jsstring) :
  trim next <> [] ->
  handleQueryChange (cells w) next w =
  Done tt {| cells := {| selectedItem :=
                           match selectedItem (cells w) with
                           | Some item =>
                               if strictEq (trim (name item)) (trim next)
                               then Some item else None
                           | None => None
                           end;
                         isInputFocused := isInputFocused (cells w);
                         query := next;
                         appliedQuery := appliedQuery (cells w);
                         isDropdownOpen := true |};
             lastAppliedValueRef := lastAppliedValueRef w;
             timer := Some (next, delay); host := host w;
             appliedLog := appliedLog w |}.
Proof.
  intros Htext. open_handlers. rewrite (strictEq_neq _ _ Htext).
  destruct (selectedItem (cells w)) as [item|]; [|reflexivity].
  destruct (strictEq (trim (name item)) (trim next)); reflexivity.
Qed.

(** C2 (amended). In the richer version, selecting a candidate [c] stores
    it as the selected item, sets the
    text of the field and the applied query to [c]'s name, clears the focus
    flag and the dropdown flag (so the dropdown is closed), and, when an
    [onSelected] callback [f] was supplied, the embedding context is changed
    by exactly one application of [f] to [c]. *)
Theorem handlePersonSelected_effect (c : Person) (w : World) :
  exists w',
    step (MouseDown c) w = Done tt w'
    /\ cells w' = {| selectedItem := Some c; isInputFocused := false;
                     query := name c; appliedQuery := name c;
                     isDropdownOpen := false |}
    /\ isOpen (cells w') = false
    /\ dropdownIsActive (render (cells w')) = false
    /\ (forall f, onSelected props = Some f -> host w' = f c (host w)).
Proof.
  eexists. split; [apply handlePersonSelected_runs|]. simpl.
  repeat split. intros f Hf. rewrite Hf. reflexivity.
Qed.

(** C8. A selection never throws.  With a callback supplied the embedding
    context is changed by the callback applied to the selected person;
    with none it is left as it was; in both cases all five state updates are
    made.  (The guard is what prevents the error: see [callProp_undefined].) *)
Theorem handlePersonSelected_optional_callback (c : Person) (w : World) :
  exists w',
    handlePersonSelected c w = Done tt w'
    /\ cells w' = {| selectedItem := Some c; isInputFocused := false;
                     query := name c; appliedQuery := name c;
                     isDropdownOpen := false |}
    /\ match onSelected props with
       | Some f => host w' = f c (host w)
       | None => host w' = host w
       end.
Proof.
  eexists. split; [apply handlePersonSelected_runs|]. simpl.
  split; [reflexivity|]. destruct (onSelected props); reflexivity.
Qed.

Lemma callProp_undefined (c : Person) (w : World) :
  callProp None c w = Thrown TypeError.
Proof. reflexivity. Qed.

(** C3 (amended). In the richer version, a text change whose text trims to
    the empty string sets
    [appliedQuery] to the empty string within the handler itself, leaves the
    debounce timer and [lastAppliedValueRef] untouched, and sets the
    dropdown flag (and with it the visible open state) to the focus flag of
    the moment. *)
Theorem handleQueryChange_blank (w : World) (next : jsstring) :
  trim next = [] ->
  exists w',
    step (Change next) w = Done tt w'
    /\ query (cells w') = next
    /\ appliedQuery (cells w') = []
    /\ appliedLog w' = appliedLog w ++ [[]]
    /\ timer w' = timer w
    /\ lastAppliedValueRef w' = lastAppliedValueRef w
    /\ isInputFocused (cells w') = isInputFocused (cells w)
    /\ isDropdownOpen (cells w') = isInputFocused (cells w)
    /\ isOpen (cells w') = isInputFocused (cells w).
Proof.
  intros Hblank. eexists.
  split; [apply handleQueryChange_blank_runs, Hblank|].
  unfold isOpen. simpl. repeat split. apply andb_diag.
Qed.

(** Only a selection stores a person in [selectedItem]. *)
Lemma step_keeps_unselected (e : Event) (w w' : World) :
  step e w = Done tt w' ->
  selectedItem (cells w) = None ->
  (forall person, e <> MouseDown person) ->
  selectedItem (cells w') = None.
Proof.
  intros Hstep Hnone Hevent.
  destruct e as [next| | |person|ms|]; simpl in Hstep.
  - destruct (strictEq_spec (trim next) []) as [Hblank|Htext].
    + rewrite (handleQueryChange_blank_runs _ _ Hblank) in Hstep.
      injection Hstep as <-. simpl. rewrite Hnone. reflexivity.
    + rewrite (handleQueryChange_text_runs _ _ Htext) in Hstep.
      injection Hstep as <-. simpl. rewrite Hnone. reflexivity.
  - open_handlers. destruct (strictEq (trim (query (cells w))) []);
      injection Hstep as <-; exact Hnone.
  - open_handlers. injection Hstep as <-. exact Hnone.
  - destruct (Hevent person eq_refl).
  - unfold elapse in Hstep. destruct (timer w) as [[value remaining]|].
    + open_handlers. destruct (remaining <=? ms)%N; simpl in Hstep.
      * destruct (negb (strictEq (lastAppliedValueRef w) value));
          injection Hstep as <-; exact Hnone.
      * injection Hstep as <-. exact Hnone.
    + injection Hstep as <-. exact Hnone.
  - open_handlers. injection Hstep as <-. exact Hnone.
Qed.

(** C5 (amended). In the richer version, on a text change while a
    candidate is selected, the selection is
    cleared exactly when the trimmed new text differs from the trimmed name
    of the selected candidate, and kept otherwise.  With no candidate
    selected, no text change selects one, and neither does any other event
    than a selection: typing a name, and the debounced commit that follows,
    leave [selectedItem] empty. *)
Theorem handleQueryChange_selection (w : World) (next : jsstring) :
  (exists w',
     step (Change next) w = Done tt w'
     /\ match selectedItem (cells w) with
        | Some item =>
            (selectedItem (cells w') = None <-> trim next <> trim (name item))
            /\ (trim next = trim (name item) ->
                selectedItem (cells w') = Some item)
        | None => selectedItem (cells w') = None
        end)
  /\ (forall e w1 w2,
        step e w1 = Done tt w2 ->
        selectedItem (cells w1) = None ->
        (forall person, e <> MouseDown person) ->
        selectedItem (cells w2) = None).
Proof.
  split; [|exact step_keeps_unselected].
  destruct (strictEq_spec (trim next) []) as [Hblank|Htext].
  - eexists. split; [apply handleQueryChange_blank_runs, Hblank|]. simpl.
    destruct (selectedItem (cells w)) as [item|]; [|reflexivity].
    rewrite Hblank.
    destruct (strictEq_spec (trim (name item)) []) as [Heq|Hne].
    + split; [split; [discriminate | congruence] | reflexivity].
    + split; [split; [congruence | reflexivity] | congruence].
  - eexists. split; [apply handleQueryChange_text_runs, Htext|]. simpl.
    destruct (selectedItem (cells w)) as [item|]; [|reflexivity].
    destruct (strictEq_spec (trim (name item)) (trim next)) as [Heq|Hne].
    + split; [split; [discriminate | congruence] | reflexivity].
    + split; [split; [congruence | reflexivity] | congruence].
Qed.

(** C6 (amended). In the richer version, while the dropdown is open the
    render shows the suggestion rows, and
    no notice, when the filter result is not empty, and the notice, and no
    row, when it is empty; while the dropdown is closed it shows neither. *)
Theorem render_dropdown (r : State) :
  (isOpen r = true -> filteredPeople r <> [] ->
     suggestionItems (render r) = filteredPeople r
     /\ noSuggestionsMessage (render r) = false)
  /\ (isOpen r = true -> filteredPeople r = [] ->
     suggestionItems (render r) = []
     /\ noSuggestionsMessage (render r) = true)
  /\ (isOpen r = false ->
     suggestionItems (render r) = []
     /\ noSuggestionsMessage (render r) = false).
Proof.
  unfold render; simpl. split; [|split].
  - intros Hopen Hres. rewrite Hopen.
    destruct (filteredPeople r); [congruence | split; reflexivity].
  - intros Hopen Hres. rewrite Hopen, Hres. split; reflexivity.
  - intros Hopen. rewrite Hopen, andb_false_r. split; reflexivity.
Qed.

(** *** The state machine *)

Lemma run_cons (e : Event) (es : list Event) (w : World) :
  run (e :: es) w =
  match step e w with
  | Done _ w' => run es w'
  | Thrown x => Thrown x
  end.
Proof. reflexivity. Qed.

Lemma run_app (es1 es2 : list Event) (w : World) :
  run (es1 ++ es2) w =
  match run es1 w with
  | Done _ w' => run es2 w'
  | Thrown x => Thrown x
  end.
Proof.
  revert w; induction es1 as [|e es1 IH]; intros w.
  - reflexivity.
  - simpl app. rewrite !run_cons. destruct (step e w); [apply IH | reflexivity].
Qed.

Lemma elapse_fires (w : World) (value : jsstring) (remaining ms : N) :
  timer w = Some (value, remaining) -> (remaining <= ms)%N ->
  elapse ms w =
  Done tt {| cells := {| selectedItem := selectedItem (cells w);
                         isInputFocused := isInputFocused (cells w);
                         query := query (cells w);
                         appliedQuery :=
                           if strictEq (lastAppliedValueRef w) value
                           then appliedQuery (cells w) else value;
                         isDropdownOpen := isDropdownOpen (cells w) |};
             lastAppliedValueRef := value;
             timer := None; host := host w;
             appliedLog :=
               if strictEq (lastAppliedValueRef w) value
               then appliedLog w else appliedLog w ++ [value] |}.
Proof.
  intros Htimer Hdue. apply N.leb_le in Hdue.
  destruct w as [[sel foc q aq dd] ref tm h log]. simpl in *. subst tm.
  open_handlers. simpl. rewrite Hdue. simpl.
  destruct (strictEq_spec ref value) as [->|Hne]; reflexivity.
Qed.

Lemma elapse_waits (w : World) (value : jsstring) (remaining ms : N) :
  timer w = Some (value, remaining) -> (ms < remaining)%N ->
  elapse ms w =
  Done tt {| cells := cells w; lastAppliedValueRef := lastAppliedValueRef w;
             timer := Some (value, (remaining - ms)%N); host := host w;
             appliedLog := appliedLog w |}.
Proof.
  intros Htimer Hearly. apply N.leb_gt in Hearly.
  open_handlers. rewrite Htimer, Hearly. reflexivity.
Qed.

Lemma elapse_idle (w : World) (ms : N) :
  timer w = None -> elapse ms w = Done tt w.
Proof. intros Htimer. unfold elapse. rewrite Htimer. reflexivity. Qed.

(** No event handler throws. *)
Lemma step_total (e : Event) (w : World) : exists w', step e w = Done tt w'.
Proof.
  destruct e as [next| | |person|ms|].
  - destruct (strictEq_spec (trim next) []) as [Hblank|Htext]; eexists.
    + apply handleQueryChange_blank_runs, Hblank.
    + apply handleQueryChange_text_runs, Htext.
  - open_handlers. destruct (strictEq (trim (query (cells w))) []); eauto.
  - open_handlers. eauto.
  - eexists. apply handlePersonSelected_runs.
  - simpl. destruct (timer w) as [[value remaining]|] eqn:Htimer.
    + destruct (N.le_gt_cases remaining ms) as [Hdue|Hearly]; eexists.
      * apply (elapse_fires _ _ _ _ Htimer Hdue).
      * apply (elapse_waits _ _ _ _ Htimer Hearly).
    + eexists. apply (elapse_idle _ _ Htimer).
  - open_handlers. eauto.
Qed.

(** The two flags after an event. *)
Lemma step_flags (e : Event) (w w' : World) :
  step e w = Done tt w' ->
  isInputFocused (cells w') =
    match e with
    | Focus => true
    | Blur | MouseDown _ => false
    | Change _ | Elapse _ | Unmount => isInputFocused (cells w)
    end
  /\ isDropdownOpen (cells w') =
    match e with
    | Focus => true
    | Blur | MouseDown _ => false
    | Change next =>
        if strictEq (trim next) [] then isInputFocused (cells w) else true
    | Elapse _ | Unmount => isDropdownOpen (cells w)
    end.
Proof.
  destruct e as [next| | |person|ms|]; simpl.
  - destruct (strictEq_spec (trim next) []) as [Hblank|Htext].
    + rewrite (handleQueryChange_blank_runs _ _ Hblank).
      intros [= <-]. split; reflexivity.
    + rewrite (handleQueryChange_text_runs _ _ Htext).
      intros [= <-]. split; reflexivity.
  - open_handlers. destruct (strictEq (trim (query (cells w))) []);
      intros [= <-]; split; reflexivity.
  - open_handlers. intros [= <-]. split; reflexivity.
  - rewrite handlePersonSelected_runs. intros [= <-]. split; reflexivity.
  - destruct (timer w) as [[value remaining]|] eqn:Htimer.
    + destruct (N.le_gt_cases remaining ms) as [Hdue|Hearly].
      * rewrite (elapse_fires _ _ _ _ Htimer Hdue). intros [= <-]. split; reflexivity.
      * rewrite (elapse_waits _ _ _ _ Htimer Hearly). intros [= <-].
        split; reflexivity.
    + rewrite (elapse_idle _ _ Htimer). intros [= <-]. split; reflexivity.
  - open_handlers. intros [= <-]. split; reflexivity.
Qed.

(** In every reachable state a focused input has its dropdown flag set. *)
Lemma focused_has_dropdown (w : World) :
  reachable w ->
  isInputFocused (cells w) = true -> isDropdownOpen (cells w) = true.
Proof.
  induction 1 as [h|w e w' Hreach IH Hstep].
  - discriminate.
  - destruct (step_flags _ _ _ Hstep) as [Hfoc Hdd]. rewrite Hfoc, Hdd.
    destruct e as [next| | |person|ms|]; try discriminate; try tauto.
    intros Hf. rewrite Hf. destruct (strictEq (trim next) []); reflexivity.
Qed.

(** So a closed dropdown is never focused: of the two events that can open
    it, only the focus event meets it closed. *)
Lemma closed_is_unfocused (w : World) :
  reachable w -> isOpen (cells w) = false -> isInputFocused (cells w) = false.
Proof.
  intros Hreach. pose proof (focused_has_dropdown _ Hreach) as Hinv.
  unfold isOpen. destruct (isInputFocused (cells w)); [|reflexivity].
  rewrite (Hinv eq_refl). discriminate.
Qed.

Ltac crack :=
  repeat match goal with
         | H : _ \/ _ |- _ => destruct H
         | H : exists _, _ |- _ => destruct H
         | H : _ /\ _ |- _ => destruct H
         end;
  try discriminate; try congruence.

(** C7 (amended). From a reachable state, for one event:

    - the dropdown on screen ([isOpen]) goes from closed to open exactly on
      a focus event, and from open to closed exactly on a blur or a
      selection; no text change, wait or unmount changes it;
    - the [isDropdownOpen] flag goes from unset to set exactly on a focus
      event or on a change to a text that does not trim to empty, focused
      or not, and from set to unset exactly on a blur, on a selection, or on
      a change to a text that trims to empty while the input is not
      focused. *)
Theorem dropdown_state_machine (w : World) (e : Event) (w' : World) :
  reachable w ->
  step e w = Done tt w' ->
  (isOpen (cells w) = false ->
     (isOpen (cells w') = true <-> e = Focus))
  /\ (isOpen (cells w) = true ->
     (isOpen (cells w') = false <->
      e = Blur \/ exists person, e = MouseDown person))
  /\ (isDropdownOpen (cells w) = false ->
     (isDropdownOpen (cells w') = true <->
      e = Focus \/ exists next, e = Change next /\ trim next <> []))
  /\ (isDropdownOpen (cells w) = true ->
     (isDropdownOpen (cells w') = false <->
      e = Blur \/ (exists person, e = MouseDown person)
      \/ exists next, e = Change next /\ trim next = []
                      /\ isInputFocused (cells w) = false)).
Proof.
  intros Hreach Hstep.
  pose proof (focused_has_dropdown _ Hreach) as Hinv.
  destruct (step_flags _ _ _ Hstep) as [Hfoc Hdd].
  unfold isOpen. rewrite Hfoc, Hdd. clear Hfoc Hdd Hstep Hreach.
  destruct (isInputFocused (cells w)) eqn:Efoc;
    destruct (isDropdownOpen (cells w)) eqn:Edd;
    try (specialize (Hinv eq_refl); discriminate); clear Hinv;
    destruct e as [next| | |person|ms|]; simpl;
    try (destruct (strictEq_spec (trim next) []) as [Hblank|Htext]);
    simpl;
    (split; [|split; [|split]]); intros Hfrom; try discriminate;
    (split; intros Hto; crack; eauto 7).
Qed.

(** *** The debounced commit *)

Ltac fields :=
  cbn [cells lastAppliedValueRef timer host appliedLog selectedItem
       isInputFocused query appliedQuery isDropdownOpen mount initialState]
    in *.

Ltac goal_fields :=
  cbv iota beta;
  cbn [cells lastAppliedValueRef timer host appliedLog selectedItem
       isInputFocused query appliedQuery isDropdownOpen mount initialState].

(** One event of a run, by the equation of its handler. *)
Ltac typed H :=
  rewrite run_cons;
  match goal with
  | |- context [step (Change ?text) ?w] =>
      change (step (Change text) w)
        with (handleQueryChange (cells w) text w);
      rewrite (handleQueryChange_text_runs w text H)
  end;
  goal_fields.

Ltac cleared H :=
  rewrite run_cons;
  match goal with
  | |- context [step (Change ?text) ?w] =>
      change (step (Change text) w)
        with (handleQueryChange (cells w) text w);
      rewrite (handleQueryChange_blank_runs w text H)
  end;
  goal_fields.

Ltac waited H :=
  rewrite run_cons;
  match goal with
  | |- context [step (Elapse ?ms) ?w] =>
      change (step (Elapse ms) w) with (elapse ms w);
      rewrite (elapse_waits w _ _ ms eq_refl H)
  end;
  goal_fields.

Ltac fired H :=
  rewrite run_cons;
  match goal with
  | |- context [step (Elapse ?ms) ?w] =>
      change (step (Elapse ms) w) with (elapse ms w);
      rewrite (elapse_fires w _ _ ms eq_refl H)
  end;
  goal_fields.

Lemma handleFocus_runs (w : World) :
  step Focus w =
  Done tt {| cells := {| selectedItem := selectedItem (cells w);
                         isInputFocused := true;
                         query := query (cells w);
                         appliedQuery :=
                           if strictEq (trim (query (cells w))) []
                           then [] else appliedQuery (cells w);
                         isDropdownOpen := true |};
             lastAppliedValueRef := lastAppliedValueRef w;
             timer := timer w; host := host w;
             appliedLog :=
               if strictEq (trim (query (cells w))) []
               then appliedLog w ++ [[]] else appliedLog w |}.
Proof.
  open_handlers. destruct (strictEq (trim (query (cells w))) []); reflexivity.
Qed.

Lemma nonblank_nonempty (s : jsstring) : trim s <> [] -> s <> [].
Proof. intros Htext ->. apply Htext. reflexivity. Qed.

(** A burst of texts none of which trims to empty, each less than [delay]
    after the one before, commits nothing and leaves the last text pending
    for a full [delay]. *)
Lemma burst_pending (rest : list (N * jsstring)) :
  forall (first : jsstring) (w : World),
    trim first <> [] ->
    Forall (fun gv => (fst gv < delay)%N /\ trim (snd gv) <> []) rest ->
    exists w',
      run (burst first rest) w = Done tt w'
      /\ timer w' = Some (lastTyped first rest, delay)
      /\ query (cells w') = lastTyped first rest
      /\ lastAppliedValueRef w' = lastAppliedValueRef w
      /\ appliedLog w' = appliedLog w
      /\ appliedQuery (cells w') = appliedQuery (cells w).
Proof.
  induction rest as [|[gap next] rest IH]; intros first w Hfirst Hrest.
  - cbn [burst lastTyped]. typed Hfirst.
    eexists. split; [reflexivity|]. fields. repeat split.
  - apply Forall_cons_iff in Hrest. destruct Hrest as [[Hgap Hnext] Hrest'].
    cbn [fst snd] in Hgap, Hnext.
    cbn [burst lastTyped]. typed Hfirst. waited Hgap.
    match goal with
    | |- context [run (burst next rest) ?w1] =>
        destruct (IH next w1 Hnext Hrest')
          as (w' & Hrun & Htimer & Hquery & Href & Hlog & Happlied)
    end.
    exists w'. fields. repeat split; assumption.
Qed.

(** C4 (amended). For every burst of text changes none of which trims to
    empty, each arriving less than [delay] after the one before, followed by
    a quiet period of at least [delay]: the debounced function is passed on
    once, with the last text typed.  That text is written to [appliedQuery]
    (one [setAppliedQuery] call, no other) when it differs from
    [lastAppliedValueRef], the last value written through the debounced
    path; when it equals it nothing is written.  No earlier text of the
    burst is ever written. *)
Theorem debounce_coalesces
  (w : World) (first : jsstring) (rest : list (N * jsstring)) (quiet : N) :
  trim first <> [] ->
  Forall (fun gv => (fst gv < delay)%N /\ trim (snd gv) <> []) rest ->
  (delay <= quiet)%N ->
  exists w',
    run (burst first rest ++ [Elapse quiet]) w = Done tt w'
    /\ timer w' = None
    /\ query (cells w') = lastTyped first rest
    /\ lastAppliedValueRef w' = lastTyped first rest
    /\ (lastAppliedValueRef w <> lastTyped first rest ->
        appliedLog w' = appliedLog w ++ [lastTyped first rest]
        /\ appliedQuery (cells w') = lastTyped first rest)
    /\ (lastAppliedValueRef w = lastTyped first rest ->
        appliedLog w' = appliedLog w
        /\ appliedQuery (cells w') = appliedQuery (cells w)).
Proof.
  intros Hfirst Hrest Hquiet.
  destruct (burst_pending rest first w Hfirst Hrest)
    as (w1 & Hrun & Htimer & Hquery & Href & Hlog & Happlied).
  rewrite run_app, Hrun, run_cons.
  change (step (Elapse quiet) w1) with (elapse quiet w1).
  rewrite (elapse_fires _ _ _ _ Htimer Hquiet). cbv iota beta.
  eexists. split; [reflexivity|]. fields.
  rewrite Href, Hlog, Hquery, Happlied.
  split; [reflexivity|]. split; [reflexivity|]. split; [reflexivity|]. split.
  - intros Hne. rewrite (strictEq_neq _ _ Hne). split; reflexivity.
  - intros Heq. rewrite Heq, strictEq_refl. split; reflexivity.
Qed.

(** C9. The guard of the debounced function looks at [lastAppliedValueRef]
    only: a value equal to it is dropped whatever [appliedQuery] holds.  The
    direct writes of [appliedQuery], in the empty-text branch of the change
    handler and in the selection handler, leave [lastAppliedValueRef] as it
    was.  So: focus, type [q], let it commit, clear the field, type [q]
    again and wait: the second [q] is dropped, [appliedQuery] stays empty
    under a field that shows [q], and the whole roster is listed. *)
Theorem stale_guard_drops_retyped_query
  (q blank : jsstring) (h : Host) (d1 d2 : N) :
  trim q <> [] -> trim blank = [] -> (delay <= d1)%N -> (delay <= d2)%N ->
  (forall w v, lastAppliedValueRef w = v -> applyValue v w = Done tt w)
  /\ (forall w next, trim next = [] ->
        exists w', step (Change next) w = Done tt w'
                   /\ appliedQuery (cells w') = []
                   /\ lastAppliedValueRef w' = lastAppliedValueRef w)
  /\ (forall w person,
        exists w', step (MouseDown person) w = Done tt w'
                   /\ appliedQuery (cells w') = name person
                   /\ lastAppliedValueRef w' = lastAppliedValueRef w)
  /\ (exists w2,
        run [Focus; Change q; Elapse d1] (mount h) = Done tt w2
        /\ appliedQuery (cells w2) = q)
  /\ (exists w5,
        run [Focus; Change q; Elapse d1; Change blank; Change q; Elapse d2]
            (mount h) = Done tt w5
        /\ query (cells w5) = q
        /\ appliedQuery (cells w5) = []
        /\ lastAppliedValueRef w5 = q
        /\ timer w5 = None
        /\ appliedLog w5 = [[]; q; []]
        /\ filteredPeople (cells w5) = peopleFromServer).
Proof.
  intros Hq Hblank Hd1 Hd2.
  pose proof (nonblank_nonempty _ Hq) as Hne.
  assert (Hfresh : strictEq [] q = false)
    by (apply strictEq_neq; congruence).
  split; [|split; [|split; [|split]]].
  - intros [s ref tm hh log] v Heq. simpl in Heq. subst v.
    open_handlers. cbn [lastAppliedValueRef]. rewrite strictEq_refl.
    reflexivity.
  - intros w next Hnext. eexists.
    split; [apply handleQueryChange_blank_runs, Hnext|]. split; reflexivity.
  - intros w person. eexists.
    split; [apply handlePersonSelected_runs|]. split; reflexivity.
  - rewrite run_cons, handleFocus_runs. goal_fields.
    typed Hq. fired Hd1.
    eexists. split; [reflexivity|]. fields. rewrite Hfresh. reflexivity.
  - rewrite run_cons, handleFocus_runs. goal_fields.
    typed Hq. fired Hd1. cleared Hblank. typed Hq. fired Hd2.
    eexists. split; [reflexivity|]. unfold filteredPeople. fields.
    rewrite Hfresh, strictEq_refl. repeat split.
Qed.

(** *** Further properties of the richer version *)

(** What each event does to the mounted component. *)
Lemma step_inv (e : Event) (w w' : World) :
  step e w = Done tt w' ->
  match e with
  | Change next =>
      (trim next = []
       /\ w' = {| cells := {| selectedItem :=
                                match selectedItem (cells w) with
                                | Some item =>
                                    if strictEq (trim (name item)) []
                                    then Some item else None
                                | None => None
                                end;
                              isInputFocused := isInputFocused (cells w);
                              query := next; appliedQuery := [];
                              isDropdownOpen := isInputFocused (cells w) |};
                  lastAppliedValueRef := lastAppliedValueRef w;
                  timer := timer w; host := host w;
                  appliedLog := appliedLog w ++ [[]] |})
      \/ (trim next <> []
          /\ w' = {| cells := {| selectedItem :=
                                   match selectedItem (cells w) with
                                   | Some item =>
                                       if strictEq (trim (name item))
                                                   (trim next)
                                       then Some item else None
                                   | None => None
                                   end;
                                 isInputFocused := isInputFocused (cells w);
                                 query := next;
                                 appliedQuery := appliedQuery (cells w);
                                 isDropdownOpen := true |};
                     lastAppliedValueRef := lastAppliedValueRef w;
                     timer := Some (next, delay); host := host w;
                     appliedLog := appliedLog w |})
  | Focus =>
      w' = {| cells := {| selectedItem := selectedItem (cells w);
                          isInputFocused := true;
                          query := query (cells w);
                          appliedQuery :=
                            if strictEq (trim (query (cells w))) []
                            then [] else appliedQuery (cells w);
                          isDropdownOpen := true |};
              lastAppliedValueRef := lastAppliedValueRef w;
              timer := timer w; host := host w;
              appliedLog :=
                if strictEq (trim (query (cells w))) []
                then appliedLog w ++ [[]] else appliedLog w |}
  | Blur =>
      w' = {| cells := {| selectedItem := selectedItem (cells w);
                          isInputFocused := false;
                          query := query (cells w);
                          appliedQuery := appliedQuery (cells w);
                          isDropdownOpen := false |};
              lastAppliedValueRef := lastAppliedValueRef w;
              timer := timer w; host := host w;
              appliedLog := appliedLog w |}
  | MouseDown person =>
      w' = {| cells := {| selectedItem := Some person;
                          isInputFocused := false;
                          query := name person; appliedQuery := name person;
                          isDropdownOpen := false |};
              lastAppliedValueRef := lastAppliedValueRef w;
              timer := timer w;
              host := match onSelected props with
                      | Some f => f person (host w)
                      | None => host w
                      end;
              appliedLog := appliedLog w ++ [name person] |}
  | Elapse ms =>
      (timer w = None /\ w' = w)
      \/ (exists value remaining,
            timer w = Some (value, remaining) /\ (ms < remaining)%N
            /\ w' = {| cells := cells w;
                       lastAppliedValueRef := lastAppliedValueRef w;
                       timer := Some (value, (remaining - ms)%N);
                       host := host w; appliedLog := appliedLog w |})
      \/ (exists value remaining,
            timer w = Some (value, remaining) /\ (remaining <= ms)%N
            /\ w' = {| cells := {| selectedItem := selectedItem (cells w);
                                   isInputFocused := isInputFocused (cells w);
                                   query := query (cells w);
                                   appliedQuery :=
                                     if strictEq (lastAppliedValueRef w) value
                                     then appliedQuery (cells w) else value;
                                   isDropdownOpen := isDropdownOpen (cells w) |};
                       lastAppliedValueRef := value;
                       timer := None; host := host w;
                       appliedLog :=
                         if strictEq (lastAppliedValueRef w) value
                         then appliedLog w else appliedLog w ++ [value] |})
  | Unmount =>
      w' = {| cells := cells w; lastAppliedValueRef := lastAppliedValueRef w;
              timer := None; host := host w; appliedLog := appliedLog w |}
  end.
Proof.
  destruct e as [next| | |person|ms|]; simpl.
  - destruct (strictEq_spec (trim next) []) as [Hblank|Htext].
    + rewrite (handleQueryChange_blank_runs _ _ Hblank). intros [= <-].
      left. split; [exact Hblank | reflexivity].
    + rewrite (handleQueryChange_text_runs _ _ Htext). intros [= <-].
      right. split; [exact Htext | reflexivity].
  - change (handleFocus (cells w) w) with (step Focus w).
    rewrite handleFocus_runs. intros [= <-]. reflexivity.
  - destruct w as [[sel foc q aq dd] ref tm h log]. intros [= <-]. reflexivity.
  - rewrite handlePersonSelected_runs. intros [= <-]. reflexivity.
  - destruct (timer w) as [[value remaining]|] eqn:Htimer.
    + destruct (N.le_gt_cases remaining ms) as [Hdue|Hearly].
      * rewrite (elapse_fires _ _ _ _ Htimer Hdue). intros [= <-].
        right. right. exists value, remaining. repeat split; assumption.
      * rewrite (elapse_waits _ _ _ _ Htimer Hearly). intros [= <-].
        right. left. exists value, remaining. repeat split; assumption.
    + rewrite (elapse_idle _ _ Htimer). intros [= <-]. left. split; reflexivity.
  - intros [= <-]. reflexivity.
Qed.

Lemma run_total (es : list Event) :
  forall w, exists w', run es w = Done tt w'.
Proof.
  induction es as [|e es IH]; intros w.
  - exists w. reflexivity.
  - rewrite run_cons. destruct (step_total e w) as [w1 ->]. apply IH.
Qed.

Lemma trim_empty_eqb (s : jsstring) :
  strictEq (trim s) [] = forallb isWhiteSpace s.
Proof.
  destruct (strictEq_spec (trim s) []) as [Hblank|Htext].
  - symmetry. apply trim_empty_iff, Hblank.
  - destruct (forallb isWhiteSpace s) eqn:Hws; [|reflexivity].
    apply trim_empty_iff in Hws. contradiction.
Qed.

(** X2. What a text change does, by the characters of the new text.  The
    field always shows the new text at once.  When every code unit of the
    text is white space (the empty text included) [appliedQuery] is emptied
    in the handler, the pending debounced call is left as it is and the
    dropdown flag becomes the focus flag.  Otherwise [appliedQuery] is left
    as it is and nothing is written to it, the text becomes the pending
    debounced call with the full delay ahead, replacing any earlier one, and
    the dropdown flag is set.  In both cases the focus flag,
    [lastAppliedValueRef] and the embedding context are untouched. *)
Theorem change_by_characters (w : World) (next : jsstring) :
  exists w',
    step (Change next) w = Done tt w'
    /\ query (cells w') = next
    /\ isInputFocused (cells w') = isInputFocused (cells w)
    /\ lastAppliedValueRef w' = lastAppliedValueRef w
    /\ host w' = host w
    /\ if forallb isWhiteSpace next
       then appliedQuery (cells w') = []
            /\ appliedLog w' = appliedLog w ++ [[]]
            /\ timer w' = timer w
            /\ isDropdownOpen (cells w') = isInputFocused (cells w)
       else appliedQuery (cells w') = appliedQuery (cells w)
            /\ appliedLog w' = appliedLog w
            /\ timer w' = Some (next, delay)
            /\ isDropdownOpen (cells w') = true.
Proof.
  destruct (step_total (Change next) w) as [w' Hstep]. exists w'.
  split; [exact Hstep|]. apply step_inv in Hstep.
  rewrite <- trim_empty_eqb.
  destruct Hstep as [[Hblank ->]|[Htext ->]]; simpl.
  - rewrite Hblank. simpl. repeat split.
  - rewrite (strictEq_neq _ _ Htext). repeat split.
Qed.

(** The selected item, if any, has the name shown in the field, up to white
    space at the ends. *)
Lemma selection_matches_query (w : World) :
  reachable w ->
  forall item, selectedItem (cells w) = Some item ->
               trim (query (cells w)) = trim (name item).
Proof.
  induction 1 as [h|w e w' Hreach IH Hstep]; intros item.
  - discriminate.
  - apply step_inv in Hstep.
    destruct e as [next| | |person|ms|].
    + destruct Hstep as [[Hblank ->]|[Htext ->]]; simpl;
        destruct (selectedItem (cells w)) as [old|]; try discriminate.
      * destruct (strictEq_spec (trim (name old)) []) as [Heq|Hne];
          [|discriminate].
        intros [= <-]. congruence.
      * destruct (strictEq_spec (trim (name old)) (trim next)) as [Heq|Hne];
          [|discriminate].
        intros [= <-]. congruence.
    + subst w'. simpl. apply IH.
    + subst w'. simpl. apply IH.
    + subst w'. simpl. intros [= <-]. reflexivity.
    + destruct Hstep as [[_ ->]|[(v & r & _ & _ & ->)|(v & r & _ & _ & ->)]];
        simpl; apply IH.
    + subst w'. simpl. apply IH.
Qed.

(** X3. In every reachable state the title and the field agree: when the
    title shows a person, that person is the selected item and the text of
    the field is the person's name up to white space at its ends; when no
    item is selected the title says so. *)
Theorem title_matches_field (w : World) :
  reachable w ->
  match title (render (cells w)) with
  | PersonTitle shown b d =>
      exists item,
        selectedItem (cells w) = Some item
        /\ shown = name item /\ b = born item /\ d = died item
        /\ trim (inputValue (render (cells w))) = trim shown
  | NoSelectedPerson => selectedItem (cells w) = None
  end.
Proof.
  intros Hreach. pose proof (selection_matches_query w Hreach) as Hinv.
  unfold render. simpl.
  destruct (selectedItem (cells w)) as [item|]; [|reflexivity].
  exists item. repeat split. apply Hinv. reflexivity.
Qed.

(** X4. In every reachable state the dropdown is open exactly when the
    input is focused: the separate dropdown flag never makes a difference to
    what is shown. *)
Theorem open_iff_focused (w : World) :
  reachable w ->
  isOpen (cells w) = isInputFocused (cells w)
  /\ dropdownIsActive (render (cells w)) = isInputFocused (cells w).
Proof.
  intros Hreach. pose proof (focused_has_dropdown w Hreach) as Hinv.
  unfold render, isOpen. simpl.
  destruct (isInputFocused (cells w)); [|split; reflexivity].
  rewrite (Hinv eq_refl). split; reflexivity.
Qed.

(** The persons selected in a sequence of events, in order. *)
Fixpoint selections (es : list Event) : list Person :=
  match es with
  | [] => []
  | MouseDown person :: rest => person :: selections rest
  | _ :: rest => selections rest
  end.

(** X5. A callback is taken to return: it is a function on the embedding
    context.  With such a callback, or with none, no sequence of events
    ends in a throw; the handlers themselves never throw, and the absent
    callback is never called.  With a callback the embedding context ends
    as the callback applied once to each selected person, in the order of
    the selections, and to nothing else; without one it is left as it
    was. *)
Theorem notifications_follow_selections (es : list Event) :
  forall w, exists w',
    run es w = Done tt w'
    /\ host w' =
       match onSelected props with
       | Some f => fold_left (fun h person => f person h) (selections es)
                             (host w)
       | None => host w
       end.
Proof.
  induction es as [|e es IH]; intros w.
  - exists w. split; [reflexivity|]. destruct (onSelected props); reflexivity.
  - rewrite run_cons. destruct (step_total e w) as [w1 Hstep]. rewrite Hstep.
    destruct (IH w1) as (w' & Hrun & Hhost). exists w'.
    split; [exact Hrun|]. rewrite Hhost. apply step_inv in Hstep.
    destruct e as [next| | |person|ms|]; simpl selections.
    + destruct Hstep as [[_ ->]|[_ ->]]; reflexivity.
    + subst w1. reflexivity.
    + subst w1. reflexivity.
    + subst w1. simpl. destruct (onSelected props); reflexivity.
    + destruct Hstep as [[_ ->]|[(v & r & _ & _ & ->)|(v & r & _ & _ & ->)]];
        reflexivity.
    + subst w1. reflexivity.
Qed.

(** X6. Focusing the input opens the dropdown and leaves the text and the
    pending debounced call as they are.  When the text of the field is
    empty or white space only, [appliedQuery] is emptied and the whole roster
    is listed (the notice appears only for an empty roster); otherwise
    [appliedQuery], and so the list, is what it was. *)
Theorem focus_lists_roster_on_blank_field (w : World) :
  exists w',
    step Focus w = Done tt w'
    /\ isOpen (cells w') = true
    /\ query (cells w') = query (cells w)
    /\ timer w' = timer w
    /\ if forallb isWhiteSpace (query (cells w))
       then appliedQuery (cells w') = []
            /\ suggestionItems (render (cells w')) = peopleFromServer
            /\ noSuggestionsMessage (render (cells w')) =
               (List.length peopleFromServer =? 0)
       else appliedQuery (cells w') = appliedQuery (cells w).
Proof.
  eexists. split; [apply handleFocus_runs|].
  rewrite <- trim_empty_eqb. unfold render, filteredPeople, isOpen. simpl.
  destruct (strictEq (trim (query (cells w))) []); [|repeat split].
  simpl. repeat split. destruct peopleFromServer; reflexivity.
Qed.

(** X7. A selection does not cancel a pending debounced call.  If a text [v]
    other than [lastAppliedValueRef] is pending when a person is selected,
    then once its wait has run out [v] replaces the selected name in
    [appliedQuery], under a field and a title that show the selected
    person. *)
Theorem selection_keeps_pending_call
  (w : World) (person : Person) (v : jsstring) (remaining ms : N) :
  timer w = Some (v, remaining) ->
  lastAppliedValueRef w <> v ->
  (remaining <= ms)%N ->
  exists w',
    run [MouseDown person; Elapse ms] w = Done tt w'
    /\ selectedItem (cells w') = Some person
    /\ query (cells w') = name person
    /\ appliedQuery (cells w') = v
    /\ appliedLog w' = appliedLog w ++ [name person; v]
    /\ timer w' = None.
Proof.
  intros Htimer Hnew Hdue.
  rewrite run_cons.
  change (step (MouseDown person) w) with (handlePersonSelected person w).
  rewrite handlePersonSelected_runs. goal_fields.
  rewrite run_cons.
  match goal with
  | |- context [step (Elapse ms) ?w1] =>
      change (step (Elapse ms) w1) with (elapse ms w1);
      rewrite (elapse_fires w1 v remaining ms Htimer Hdue)
  end.
  goal_fields. eexists. split; [reflexivity|]. fields.
  rewrite (strictEq_neq _ _ Hnew), <- app_assoc. repeat split.
Qed.

(** X8. Clearing the field does not cancel a pending debounced call either.
    If a text [v] other than [lastAppliedValueRef] is pending when the field
    is changed to an empty or white-space text, [appliedQuery] is emptied at
    once and, once the wait has run out, set to [v], under a field that
    shows the cleared text. *)
Theorem clearing_keeps_pending_call
  (w : World) (blank v : jsstring) (remaining ms : N) :
  trim blank = [] ->
  timer w = Some (v, remaining) ->
  lastAppliedValueRef w <> v ->
  (remaining <= ms)%N ->
  exists w1 w2,
    step (Change blank) w = Done tt w1
    /\ appliedQuery (cells w1) = []
    /\ step (Elapse ms) w1 = Done tt w2
    /\ query (cells w2) = blank
    /\ appliedQuery (cells w2) = v
    /\ appliedLog w2 = appliedLog w ++ [[]; v].
Proof.
  intros Hblank Htimer Hnew Hdue.
  eexists. eexists.
  split; [apply handleQueryChange_blank_runs, Hblank|].
  split; [reflexivity|].
  split;
    [match goal with
     | |- step (Elapse ms) ?w1 = _ =>
         exact (elapse_fires w1 v remaining ms Htimer Hdue)
     end|].
  fields. rewrite (strictEq_neq _ _ Hnew), <- app_assoc. repeat split.
Qed.

(** X9. Unmounting cancels the pending debounced call: however much time
    passes afterwards, nothing is written any more. *)
Theorem unmount_cancels_pending_call (waits : list N) :
  forall w,
    run (Unmount :: map Elapse waits) w =
    Done tt {| cells := cells w; lastAppliedValueRef := lastAppliedValueRef w;
               timer := None; host := host w; appliedLog := appliedLog w |}.
Proof.
  intros w. rewrite run_cons.
  change (step Unmount w) with (debouncedApply_cancel w).
  unfold debouncedApply_cancel, setTimer. cbv iota beta.
  generalize (cells w) (lastAppliedValueRef w) (host w) (appliedLog w).
  induction waits as [|ms waits IH]; intros c ref h log.
  - reflexivity.
  - simpl map. rewrite run_cons. apply IH.
Qed.

(** X10. Every suggestion row on screen is a person of the roster whose
    lower-cased name contains the lower-cased trimmed applied query, and the
    rows are in roster order.  Rows and the notice never appear together,
    and either of them appears only while the dropdown is open. *)
Theorem rendered_rows_match (r : State) :
  (forall person,
     In person (suggestionItems (render r)) ->
     In person peopleFromServer
     /\ Substring (toLowerCase (trim (appliedQuery r)))
                  (toLowerCase (name person)))
  /\ Subseq (suggestionItems (render r)) peopleFromServer
  /\ (suggestionItems (render r) <> [] ->
      noSuggestionsMessage (render r) = false /\ isOpen r = true)
  /\ (noSuggestionsMessage (render r) = true ->
      suggestionItems (render r) = [] /\ isOpen r = true).
Proof.
  assert (Hrows : suggestionItems (render r) =
                  if isOpen r then filteredPeople r else []).
  { unfold render. simpl.
    destruct (filteredPeople r), (isOpen r); reflexivity. }
  assert (Hnotice : noSuggestionsMessage (render r) =
                    isOpen r && (List.length (filteredPeople r) =? 0))
    by reflexivity.
  rewrite Hrows, Hnotice. clear Hrows Hnotice.
  destruct (isOpen r); simpl.
  - rewrite filteredPeople_is_filter.
    split; [|split; [apply filter_Subseq|split]].
    + intros person Hin. apply filter_In in Hin. destruct Hin as [Hin Htest].
      split; [exact Hin | apply includes_spec, Htest].
    + intros Hsome. split; [|reflexivity].
      destruct (filter (nameIncludes (appliedQuery r)) peopleFromServer);
        [congruence | reflexivity].
    + intros Hempty. split; [|reflexivity].
      destruct (filter (nameIncludes (appliedQuery r)) peopleFromServer);
        [reflexivity | discriminate].
  - split; [intros person []|]. split; [apply Subseq_nil_l|].
    split; [congruence | discriminate].
Qed.

(** X11. A more specific query never adds candidates: when the lower-cased
    trimmed query of one render is contained in that of another, the list of
    the second is a selection, in order, of the list of the first, whatever
    the focus of either. *)
Theorem narrower_query_narrows_list (r1 r2 : State) :
  Substring (toLowerCase (trim (appliedQuery r1)))
            (toLowerCase (trim (appliedQuery r2))) ->
  Subseq (filteredPeople r2) (filteredPeople r1).
Proof.
  intros Hsub. rewrite !filteredPeople_is_filter.
  apply filter_Subseq_mono. intros person Hmatch. unfold nameIncludes in *.
  apply (includes_trans _ _ _ Hmatch). apply includes_spec, Hsub.
Qed.

(** X12. The list depends on the applied query only through its trimmed
    form: a render whose applied query is the trimmed applied query of
    another lists the same persons, whatever the focus of either. *)
Theorem filter_reads_trimmed_query (r r' : State) :
  appliedQuery r' = trim (appliedQuery r) ->
  filteredPeople r' = filteredPeople r.
Proof.
  intros Htrimmed. rewrite !filteredPeople_is_filter, Htrimmed.
  unfold nameIncludes. rewrite trim_fixed. reflexivity.
Qed.

(** X13. In every reachable state a pending debounced call carries a text
    that does not trim to empty and has at most the full delay left; and
    [lastAppliedValueRef] is empty (nothing committed through the debounced
    path yet) or a text that does not trim to empty. *)
Theorem pending_call_is_nonblank (w : World) :
  reachable w ->
  (forall v remaining,
     timer w = Some (v, remaining) ->
     trim v <> [] /\ (remaining <= delay)%N)
  /\ (lastAppliedValueRef w <> [] -> trim (lastAppliedValueRef w) <> []).
Proof.
  induction 1 as [h|w e w' Hreach [IHtimer IHref] Hstep].
  - split; [discriminate | intros Hne; exfalso; apply Hne; reflexivity].
  - apply step_inv in Hstep.
    destruct e as [next| | |person|ms|].
    + destruct Hstep as [[_ ->]|[Htext ->]]; simpl.
      * split; assumption.
      * split; [|assumption]. intros v remaining [= <- <-].
        split; [exact Htext | apply N.le_refl].
    + subst w'. simpl. split; assumption.
    + subst w'. simpl. split; assumption.
    + subst w'. simpl. split; assumption.
    + destruct Hstep
        as [[_ ->]|[(v & r & Htimer & Hearly & ->)|(v & r & Htimer & _ & ->)]];
        simpl.
      * split; assumption.
      * split; [|assumption]. intros v' r' [= <- <-].
        destruct (IHtimer v r Htimer) as [Htext Hle]. split; [exact Htext|].
        unfold delay in *. lia.
      * split; [discriminate|]. intros _. apply (IHtimer v r Htimer).
    + subst w'. simpl. split; [discriminate | assumption].
Qed.

(** X14. Waiting in two stretches is waiting once: a pending call is passed
    on, or not yet, by the total time since it was made, however the time
    is split between events. *)
Theorem elapse_adds_up (a b : N) (w : World) :
  run [Elapse a; Elapse b] w = run [Elapse (a + b)] w.
Proof.
  rewrite !run_cons.
  change (step (Elapse a) w) with (elapse a w).
  change (step (Elapse (a + b)) w) with (elapse (a + b) w).
  destruct (timer w) as [[v r]|] eqn:Htimer.
  - destruct (N.le_gt_cases r a) as [Hdue|Hearly].
    + rewrite (elapse_fires w v r a Htimer Hdue).
      rewrite (elapse_fires w v r (a + b) Htimer) by lia.
      cbv iota beta. rewrite run_cons.
      match goal with
      | |- context [step (Elapse b) ?w1] =>
          change (step (Elapse b) w1) with (elapse b w1);
          rewrite (elapse_idle w1 b eq_refl)
      end.
      reflexivity.
    + rewrite (elapse_waits w v r a Htimer Hearly). cbv iota beta.
      rewrite run_cons.
      match goal with
      | |- context [step (Elapse b) ?w1] =>
          change (step (Elapse b) w1) with (elapse b w1)
      end.
      destruct (N.le_gt_cases r (a + b)) as [Hdue2|Hearly2].
      * rewrite (elapse_fires w v r (a + b) Htimer Hdue2).
        match goal with
        | |- context [elapse b ?w1] =>
            rewrite (elapse_fires w1 v (r - a)%N b eq_refl) by lia
        end.
        reflexivity.
      * rewrite (elapse_waits w v r (a + b) Htimer Hearly2).
        match goal with
        | |- context [elapse b ?w1] =>
            rewrite (elapse_waits w1 v (r - a)%N b eq_refl) by lia
        end.
        goal_fields.
        replace (r - a - b)%N with (r - (a + b))%N by lia. reflexivity.
  - rewrite (elapse_idle w a Htimer), (elapse_idle w (a + b) Htimer).
    cbv iota beta. rewrite run_cons.
    change (step (Elapse b) w) with (elapse b w).
    rewrite (elapse_idle w b Htimer). reflexivity.
Qed.

Lemma reachable_run (es : list Event) :
  forall w w', reachable w -> run es w = Done tt w' -> reachable w'.
Proof.
  induction es as [|e es IH]; intros w w' Hreach Hrun.
  - injection Hrun as <-. exact Hreach.
  - rewrite run_cons in Hrun. destruct (step e w) as [[] w1|x] eqn:Hstep;
      [|discriminate].
    exact (IH w1 w' (reachable_step w e w1 Hreach Hstep) Hrun).
Qed.

End Component.

(** *** Runs on the small roster *)

(** A parent that records the persons it is notified of. *)
Definition recordingProps : @Props (list Person) :=
  {| debounceDelay := None;
     onSelected := Some (fun person seen => seen ++ [person]) |}.

(** A parent that passes no callback. *)
Definition silentProps : @Props (list Person) :=
  {| debounceDelay := None; onSelected := None |}.

(** The cells after a run ([initialState] if a handler threw). *)
Definition cellsAfter (p : @Props (list Person)) (es : list Event) : State :=
  match run p es (mount []) with
  | Done _ w => cells w
  | Thrown _ => initialState
  end.

Definition visible (p : @Props (list Person)) (es : list Event) : View :=
  render toLowerCaseAscii roster (cellsAfter p es).

Example typing_al_lists_alice :
  suggestionItems (visible recordingProps
                     [Focus; Change (str "al"); Elapse 300]) = [alice].
Proof. reflexivity. Qed.

Example selecting_alice_shows_title_and_closes :
  let v := visible recordingProps
             [Focus; Change (str "al"); Elapse 300; MouseDown alice] in
  title v = PersonTitle (str "Alice") 1 2 /\ dropdownIsActive v = false.
Proof. split; reflexivity. Qed.

Example clearing_while_focused_lists_all :
  let v := visible recordingProps
             [Focus; Change (str "al"); Elapse 300; MouseDown alice;
              Focus; Change []] in
  suggestionItems v = [alice; bob] /\ dropdownIsActive v = true.
Proof. split; reflexivity. Qed.

Example zzz_shows_only_the_notice :
  let v := visible recordingProps [Focus; Change (str "zzz"); Elapse 300] in
  dropdownIsActive v = true /\ suggestionItems v = []
  /\ noSuggestionsMessage v = true.
Proof. repeat split; reflexivity. Qed.

Example matching_is_by_substring_and_case :
  filteredPeople toLowerCaseAscii roster
    {| selectedItem := None; isInputFocused := false; query := str " LIC ";
       appliedQuery := str " LIC "; isDropdownOpen := false |} = [alice].
Proof. reflexivity. Qed.

(** *** The theorems at concrete inputs *)

Definition unfocusedLic : State :=
  {| selectedItem := None; isInputFocused := false; query := str " LIC ";
     appliedQuery := str " LIC "; isDropdownOpen := false |}.

Lemma filteredPeople_exact_witness :
  toLowerCaseAscii [] = []
  /\ filteredPeople toLowerCaseAscii roster unfocusedLic =
     filter (nameIncludes toLowerCaseAscii (str " LIC ")) roster
  /\ Subseq (filteredPeople toLowerCaseAscii roster unfocusedLic) roster.
Proof.
  split; [reflexivity|].
  pose proof (filteredPeople_exact toLowerCaseAscii roster eq_refl
                unfocusedLic) as (Hfilter & _ & _ & Horder & _).
  split; [exact Hfilter | exact Horder].
Defined.

Definition unfocusedBlank : State :=
  {| selectedItem := None; isInputFocused := false; query := str "  ";
     appliedQuery := str "  "; isDropdownOpen := false |}.

Lemma filteredPeople_ignores_focus_witness :
  toLowerCaseAscii [] = []
  /\ trim (appliedQuery unfocusedBlank) = []
  /\ filteredPeople toLowerCaseAscii roster unfocusedBlank = roster.
Proof.
  split; [reflexivity|]. split; [reflexivity|].
  exact (proj1 (filteredPeople_ignores_focus toLowerCaseAscii roster eq_refl
                  unfocusedBlank) eq_refl).
Defined.

Lemma handlePersonSelected_effect_witness :
  onSelected recordingProps = Some (fun person seen => seen ++ [person])
  /\ exists w',
       step recordingProps (MouseDown alice) (mount []) = Done tt w'
       /\ appliedQuery (cells w') = str "Alice"
       /\ host w' = [alice].
Proof.
  split; [reflexivity|].
  destruct (handlePersonSelected_effect toLowerCaseAscii roster recordingProps
              alice (mount []))
    as (w' & Hstep & Hcells & _ & _ & Hcall).
  exists w'. split; [exact Hstep|]. split.
  - rewrite Hcells. reflexivity.
  - exact (Hcall _ eq_refl).
Defined.

Lemma handleQueryChange_blank_witness :
  trim (str "  ") = []
  /\ exists w',
       step recordingProps (Change (str "  ")) (mount []) = Done tt w'
       /\ appliedQuery (cells w') = []
       /\ isDropdownOpen (cells w') = false.
Proof.
  split; [reflexivity|].
  destruct (handleQueryChange_blank recordingProps (mount []) (str "  ")
              eq_refl)
    as (w' & Hstep & _ & Happlied & _ & _ & _ & _ & Hdropdown & _).
  exists w'. split; [exact Hstep|]. split; [exact Happlied | exact Hdropdown].
Defined.

Definition aliceSelected : @World (list Person) :=
  {| cells := {| selectedItem := Some alice; isInputFocused := true;
                 query := str "Alice"; appliedQuery := str "Alice";
                 isDropdownOpen := true |};
     lastAppliedValueRef := []; timer := None; host := [alice];
     appliedLog := [str "Alice"] |}.

Lemma handleQueryChange_selection_witness :
  trim (str " Alice ") = trim (name alice)
  /\ exists w',
       step recordingProps (Change (str " Alice ")) aliceSelected = Done tt w'
       /\ selectedItem (cells w') = Some alice.
Proof.
  split; [reflexivity|].
  destruct (proj1 (handleQueryChange_selection recordingProps aliceSelected
                     (str " Alice ")))
    as (w' & Hstep & _ & Hkept).
  exists w'. split; [exact Hstep | exact (Hkept eq_refl)].
Defined.

Definition openOnZzz : State :=
  {| selectedItem := None; isInputFocused := true; query := str "zzz";
     appliedQuery := str "zzz"; isDropdownOpen := true |}.

Lemma render_dropdown_witness :
  isOpen openOnZzz = true
  /\ filteredPeople toLowerCaseAscii roster openOnZzz = []
  /\ suggestionItems (render toLowerCaseAscii roster openOnZzz) = []
  /\ noSuggestionsMessage (render toLowerCaseAscii roster openOnZzz) = true.
Proof.
  split; [reflexivity|]. split; [reflexivity|].
  destruct (render_dropdown toLowerCaseAscii roster openOnZzz)
    as (_ & Hempty & _).
  exact (Hempty eq_refl eq_refl).
Defined.

Lemma short_gap : (fst (100%N, str "al") < delay recordingProps)%N
                  /\ trim (snd (100%N, str "al")) <> [].
Proof. split; [reflexivity | discriminate]. Defined.

Lemma debounce_coalesces_witness :
  trim (str "a") <> []
  /\ Forall (fun gv => (fst gv < delay recordingProps)%N
                       /\ trim (snd gv) <> []) [(100%N, str "al")]
  /\ (delay recordingProps <= 300)%N
  /\ exists w',
       run recordingProps
         (burst (str "a") [(100%N, str "al")] ++ [Elapse 300]) (mount []) =
       Done tt w'
       /\ appliedLog w' = [str "al"]
       /\ appliedQuery (cells w') = str "al".
Proof.
  assert (Hfirst : trim (str "a") <> []) by discriminate.
  assert (Hrest : Forall (fun gv => (fst gv < delay recordingProps)%N
                                    /\ trim (snd gv) <> [])
                         [(100%N, str "al")])
    by (constructor; [exact short_gap | constructor]).
  assert (Hquiet : (delay recordingProps <= 300)%N) by discriminate.
  split; [exact Hfirst|]. split; [exact Hrest|]. split; [exact Hquiet|].
  destruct (debounce_coalesces recordingProps (mount []) (str "a")
              [(100%N, str "al")] 300%N Hfirst Hrest Hquiet)
    as (w' & Hrun & _ & _ & _ & Hcommit & _).
  exists w'. split; [exact Hrun|]. apply Hcommit. discriminate.
Defined.

Definition typedUnfocused : @World (list Person) :=
  {| cells := {| selectedItem := None; isInputFocused := false;
                 query := str "a"; appliedQuery := [];
                 isDropdownOpen := true |};
     lastAppliedValueRef := []; timer := Some (str "a", 300%N); host := [];
     appliedLog := [] |}.

Lemma dropdown_state_machine_witness :
  reachable recordingProps (mount [])
  /\ step recordingProps (Change (str "a")) (mount []) = Done tt typedUnfocused
  /\ isDropdownOpen (cells (mount (Host := list Person) [])) = false
  /\ isDropdownOpen (cells typedUnfocused) = true
  /\ isOpen (cells typedUnfocused) = false.
Proof.
  assert (Hstep : step recordingProps (Change (str "a")) (mount []) =
                  Done tt typedUnfocused) by (vm_compute; reflexivity).
  assert (Htext : trim (str "a") <> []) by discriminate.
  split; [constructor|]. split; [exact Hstep|]. split; [reflexivity|].
  destruct (dropdown_state_machine recordingProps (mount []) (Change (str "a"))
              typedUnfocused (reachable_mount recordingProps []) Hstep)
    as (Hopens & _ & Hsets & _).
  split.
  - apply (proj2 (Hsets eq_refl)). right. exists (str "a").
    split; [reflexivity | exact Htext].
  - apply not_true_is_false. intros Hopen.
    discriminate (proj1 (Hopens eq_refl) Hopen).
Defined.

Lemma stale_guard_drops_retyped_query_witness :
  trim (str "a") <> [] /\ trim [] = []
  /\ (delay recordingProps <= 300)%N
  /\ exists w5,
       run recordingProps
         [Focus; Change (str "a"); Elapse 300; Change []; Change (str "a");
          Elapse 300] (mount []) = Done tt w5
       /\ query (cells w5) = str "a"
       /\ appliedQuery (cells w5) = [].
Proof.
  assert (Hq : trim (str "a") <> []) by discriminate.
  assert (Hd : (delay recordingProps <= 300)%N) by discriminate.
  split; [exact Hq|]. split; [reflexivity|]. split; [exact Hd|].
  destruct (stale_guard_drops_retyped_query toLowerCaseAscii roster
              recordingProps (str "a") [] [] 300%N 300%N Hq eq_refl Hd Hd)
    as (_ & _ & _ & _ & w5 & Hrun & Hquery & Happlied & _).
  exists w5. split; [exact Hrun|]. split; [exact Hquery | exact Happlied].
Defined.

(** *** Where the debounce claim, as the spec words it, fails *)

(** C4 as worded asks, for every burst of text changes and the quiet period
    after it, for exactly one write of [appliedQuery], of the last text
    typed.  Two runs show otherwise.

    First run: "a" is typed and committed and the field is cleared, so the
    value last written to [appliedQuery] is the empty string; the burst
    "a" and the quiet period after it then write nothing, and [appliedQuery]
    stays empty under a field that shows "a".

    Second run: in the burst "a", "" the empty text is written at once, and
    the pending "a" is written 300 ms later: two writes, the last of them a
    text that is not the last one typed. *)
Definition clearedAfterCommit : @World (list Person) :=
  {| cells := {| selectedItem := None; isInputFocused := false; query := [];
                 appliedQuery := []; isDropdownOpen := false |};
     lastAppliedValueRef := str "a"; timer := None; host := [];
     appliedLog := [str "a"; []] |}.

Definition retypedAndDropped : @World (list Person) :=
  {| cells := {| selectedItem := None; isInputFocused := false;
                 query := str "a"; appliedQuery := [];
                 isDropdownOpen := true |};
     lastAppliedValueRef := str "a"; timer := None; host := [];
     appliedLog := [str "a"; []] |}.

Definition staleAfterClear : @World (list Person) :=
  {| cells := {| selectedItem := None; isInputFocused := false; query := [];
                 appliedQuery := str "a"; isDropdownOpen := false |};
     lastAppliedValueRef := str "a"; timer := None; host := [];
     appliedLog := [[]; str "a"] |}.

Lemma debounce_commit_counterexample :
  (run recordingProps [Change (str "a"); Elapse 300; Change []] (mount []) =
     Done tt clearedAfterCommit
   /\ appliedQuery (cells clearedAfterCommit) = []
   /\ run recordingProps (burst (str "a") [] ++ [Elapse 300])
          clearedAfterCommit = Done tt retypedAndDropped
   /\ appliedLog retypedAndDropped = appliedLog clearedAfterCommit
   /\ appliedLog retypedAndDropped <>
      appliedLog clearedAfterCommit ++ [lastTyped (str "a") []]
   /\ query (cells retypedAndDropped) = str "a"
   /\ appliedQuery (cells retypedAndDropped) = [])
  /\ (run recordingProps (burst (str "a") [(100%N, [])] ++ [Elapse 300])
          (mount []) = Done tt staleAfterClear
      /\ lastTyped (str "a") [(100%N, [])] = []
      /\ appliedLog staleAfterClear = [[]; str "a"]
      /\ appliedLog staleAfterClear <>
         appliedLog (mount (Host := list Person) [])
           ++ [lastTyped (str "a") [(100%N, [])]]
      /\ query (cells staleAfterClear) = []
      /\ appliedQuery (cells staleAfterClear) = str "a").
Proof.
  split.
  - split; [vm_compute; reflexivity|]. split; [reflexivity|].
    split; [vm_compute; reflexivity|]. split; [reflexivity|].
    split; [discriminate|]. split; reflexivity.
  - split; [vm_compute; reflexivity|]. split; [reflexivity|].
    split; [reflexivity|]. split; [discriminate|]. split; reflexivity.
Qed.

(** *** Where the claim on the dropdown states, as the spec words it, fails *)

Definition clearedUnfocused : @World (list Person) :=
  {| cells := {| selectedItem := None; isInputFocused := false; query := [];
                 appliedQuery := []; isDropdownOpen := false |};
     lastAppliedValueRef := []; timer := Some (str "a", 300%N); host := [];
     appliedLog := [[]] |}.

(** C7 as worded has two triggers from closed to open, a focus event and a
    non-empty text change while focused, two from open to closed, blur and
    selection, and no other change of the state.

    Read on the [isDropdownOpen] flag: in the fresh component, which is not
    focused, the text change "a" sets the flag, and the text change to the
    empty text then unsets it; the first is no focus event and happens
    while not focused, the second is neither a blur nor a selection.

    Read on the dropdown on screen: no reachable state is closed and
    focused, so no text change ever opens a closed dropdown. *)
Lemma dropdown_claim_counterexample :
  isInputFocused (cells (mount (Host := list Person) [])) = false
  /\ isDropdownOpen (cells (mount (Host := list Person) [])) = false
  /\ step recordingProps (Change (str "a")) (mount []) = Done tt typedUnfocused
  /\ isInputFocused (cells typedUnfocused) = false
  /\ isDropdownOpen (cells typedUnfocused) = true
  /\ step recordingProps (Change []) typedUnfocused = Done tt clearedUnfocused
  /\ isDropdownOpen (cells clearedUnfocused) = false
  /\ ~ (exists w next w',
          reachable recordingProps w
          /\ isOpen (cells w) = false
          /\ isInputFocused (cells w) = true
          /\ trim next <> []
          /\ step recordingProps (Change next) w = Done tt w'
          /\ isOpen (cells w') = true).
Proof.
  split; [reflexivity|]. split; [reflexivity|].
  split; [vm_compute; reflexivity|]. split; [reflexivity|].
  split; [reflexivity|]. split; [vm_compute; reflexivity|].
  split; [reflexivity|].
  intros (w & next & w' & Hreach & Hclosed & Hfocused & _).
  rewrite (closed_is_unfocused recordingProps w Hreach Hclosed) in Hfocused.
  discriminate.
Qed.

(** *** The further properties at concrete inputs *)

(** The field after the user has focused it and typed "al". *)
Definition typingAl : @World (list Person) :=
  {| cells := {| selectedItem := None; isInputFocused := true;
                 query := str "al"; appliedQuery := [];
                 isDropdownOpen := true |};
     lastAppliedValueRef := []; timer := Some (str "al", 300%N); host := [];
     appliedLog := [[]] |}.

Lemma typingAl_reachable : reachable recordingProps typingAl.
Proof.
  apply (reachable_run recordingProps [Focus; Change (str "al")] (mount []));
    [constructor | vm_compute; reflexivity].
Defined.

Lemma aliceSelected_reachable : reachable recordingProps aliceSelected.
Proof.
  apply (reachable_run recordingProps [MouseDown alice; Focus] (mount []));
    [constructor | vm_compute; reflexivity].
Defined.

Lemma title_matches_field_witness :
  reachable recordingProps aliceSelected
  /\ exists item,
       selectedItem (cells aliceSelected) = Some item
       /\ str "Alice" = name item /\ 1%Z = born item /\ 2%Z = died item
       /\ trim (inputValue (render toLowerCaseAscii roster
                              (cells aliceSelected))) = trim (str "Alice").
Proof.
  split; [exact aliceSelected_reachable|].
  exact (title_matches_field toLowerCaseAscii roster recordingProps
           aliceSelected aliceSelected_reachable).
Defined.

Lemma open_iff_focused_witness :
  reachable recordingProps typingAl
  /\ isOpen (cells typingAl) = isInputFocused (cells typingAl).
Proof.
  split; [exact typingAl_reachable|].
  exact (proj1 (open_iff_focused toLowerCaseAscii roster recordingProps
                  typingAl typingAl_reachable)).
Defined.

Lemma selection_keeps_pending_call_witness :
  timer typingAl = Some (str "al", 300%N)
  /\ lastAppliedValueRef typingAl <> str "al"
  /\ (300 <= 300)%N
  /\ exists w',
       run recordingProps [MouseDown alice; Elapse 300] typingAl = Done tt w'
       /\ query (cells w') = str "Alice"
       /\ appliedQuery (cells w') = str "al".
Proof.
  assert (Hnew : lastAppliedValueRef typingAl <> str "al") by discriminate.
  assert (Hdue : (300 <= 300)%N) by discriminate.
  split; [reflexivity|]. split; [exact Hnew|]. split; [exact Hdue|].
  destruct (selection_keeps_pending_call recordingProps typingAl alice
              (str "al") 300%N 300%N eq_refl Hnew Hdue)
    as (w' & Hrun & _ & Hquery & Happlied & _).
  exists w'. split; [exact Hrun|]. split; [exact Hquery | exact Happlied].
Defined.

Lemma clearing_keeps_pending_call_witness :
  trim [] = []
  /\ timer typingAl = Some (str "al", 300%N)
  /\ lastAppliedValueRef typingAl <> str "al"
  /\ (300 <= 300)%N
  /\ exists w1 w2,
       step recordingProps (Change []) typingAl = Done tt w1
       /\ step recordingProps (Elapse 300) w1 = Done tt w2
       /\ query (cells w2) = []
       /\ appliedQuery (cells w2) = str "al".
Proof.
  assert (Hnew : lastAppliedValueRef typingAl <> str "al") by discriminate.
  assert (Hdue : (300 <= 300)%N) by discriminate.
  split; [reflexivity|]. split; [reflexivity|]. split; [exact Hnew|].
  split; [exact Hdue|].
  destruct (clearing_keeps_pending_call recordingProps typingAl []
              (str "al") 300%N 300%N eq_refl eq_refl Hnew Hdue)
    as (w1 & w2 & Hclear & _ & Hfire & Hquery & Happlied & _).
  exists w1, w2. split; [exact Hclear|]. split; [exact Hfire|].
  split; [exact Hquery | exact Happlied].
Defined.

Definition openOnAl : State :=
  {| selectedItem := None; isInputFocused := true; query := str "al";
     appliedQuery := str "al"; isDropdownOpen := true |}.

Definition openOnAli : State :=
  {| selectedItem := None; isInputFocused := true; query := str "Ali";
     appliedQuery := str "Ali"; isDropdownOpen := true |}.

Lemma rendered_rows_match_witness :
  toLowerCaseAscii [] = []
  /\ Subseq (suggestionItems (render toLowerCaseAscii roster openOnAl)) roster
  /\ suggestionItems (render toLowerCaseAscii roster openOnAl) = [alice].
Proof.
  split; [reflexivity|]. split; [|reflexivity].
  exact (proj1 (proj2 (rendered_rows_match toLowerCaseAscii roster eq_refl
                         openOnAl))).
Defined.

Lemma al_in_ali :
  Substring (toLowerCaseAscii (trim (appliedQuery openOnAl)))
            (toLowerCaseAscii (trim (appliedQuery openOnAli))).
Proof. apply includes_spec. reflexivity. Defined.

Lemma narrower_query_narrows_list_witness :
  toLowerCaseAscii [] = []
  /\ Substring (toLowerCaseAscii (trim (appliedQuery openOnAl)))
               (toLowerCaseAscii (trim (appliedQuery openOnAli)))
  /\ Subseq (filteredPeople toLowerCaseAscii roster openOnAli)
            (filteredPeople toLowerCaseAscii roster openOnAl).
Proof.
  split; [reflexivity|]. split; [exact al_in_ali|].
  exact (narrower_query_narrows_list toLowerCaseAscii roster eq_refl
           openOnAl openOnAli al_in_ali).
Defined.

Definition unfocusedLicTrimmed : State :=
  {| selectedItem := None; isInputFocused := true; query := str "LIC";
     appliedQuery := str "LIC"; isDropdownOpen := true |}.

Lemma filter_reads_trimmed_query_witness :
  toLowerCaseAscii [] = []
  /\ appliedQuery unfocusedLicTrimmed = trim (appliedQuery unfocusedLic)
  /\ filteredPeople toLowerCaseAscii roster unfocusedLicTrimmed =
     filteredPeople toLowerCaseAscii roster unfocusedLic.
Proof.
  split; [reflexivity|]. split; [reflexivity|].
  exact (filter_reads_trimmed_query toLowerCaseAscii roster eq_refl
           unfocusedLic unfocusedLicTrimmed eq_refl).
Defined.

Lemma pending_call_is_nonblank_witness :
  reachable recordingProps typingAl
  /\ trim (str "al") <> [] /\ (300 <= delay recordingProps)%N.
Proof.
  split; [exact typingAl_reachable|].
  exact (proj1 (pending_call_is_nonblank recordingProps typingAl
                  typingAl_reachable) (str "al") 300%N eq_refl).
Defined.

End Rich.

(** ** The middle version ([src/unnamed/part_001]) *)

Module Mid.
Section Component.

Context {Host : Type}.
Variable toLowerCase : jsstring -> jsstring.
Variable peopleFromServer : list Person.

Record Props : Type := mkProps {
  debounceDelay : option N;
  onPersonSelected : option (Person -> Host -> Host)
}.

Variable props : Props.

Definition delay : N :=
  match debounceDelay props with
  | Some ms => ms
  | None => 300%N
  end.

(** The four [useState] cells; [selectedItem] starts [undefined], which the
    component treats like [null]. *)
Record State : Type := mkState {
  selectedItem : option Person;
  isInputFocused : bool;
  query : jsstring;
  appliedQuery : jsstring
}.

(** [lastValue] is the variable the debounced function closes over. *)
Record World : Type := mkWorld {
  cells : State;
  lastValue : jsstring;
  timer : option (jsstring * N);
  host : Host;
  appliedLog : list jsstring
}.

Definition initialState : State :=
  {| selectedItem := None; isInputFocused := false; query := [];
     appliedQuery := [] |}.

Definition mount (h : Host) : World :=
  {| cells := initialState; lastValue := []; timer := None; host := h;
     appliedLog := [] |}.

Definition updateCells (f : State -> State) : M World unit :=
  fun w => Done tt {| cells := f (cells w); lastValue := lastValue w;
                      timer := timer w; host := host w;
                      appliedLog := appliedLog w |}.

Definition setSelectedItem (v : option Person) : M World unit :=
  updateCells (fun s =>
    {| selectedItem := v; isInputFocused := isInputFocused s; query := query s;
       appliedQuery := appliedQuery s |}).

Definition setIsInputFocused (v : bool) : M World unit :=
  updateCells (fun s =>
    {| selectedItem := selectedItem s; isInputFocused := v; query := query s;
       appliedQuery := appliedQuery s |}).

Definition setQuery (v : jsstring) : M World unit :=
  updateCells (fun s =>
    {| selectedItem := selectedItem s; isInputFocused := isInputFocused s;
       query := v; appliedQuery := appliedQuery s |}).

Definition setAppliedQuery (v : jsstring) : M World unit :=
  fun w =>
    let s := cells w in
    Done tt {| cells := {| selectedItem := selectedItem s;
                           isInputFocused := isInputFocused s;
                           query := query s; appliedQuery := v |};
               lastValue := lastValue w; timer := timer w; host := host w;
               appliedLog := appliedLog w ++ [v] |}.

Definition readLastValue : M World jsstring := fun w => Done (lastValue w) w.

Definition writeLastValue (v : jsstring) : M World unit :=
  fun w => Done tt {| cells := cells w; lastValue := v; timer := timer w;
                      host := host w; appliedLog := appliedLog w |}.

Definition setTimer (t : option (jsstring * N)) : M World unit :=
  fun w => Done tt {| cells := cells w; lastValue := lastValue w; timer := t;
                      host := host w; appliedLog := appliedLog w |}.

Definition callProp (f : option (Person -> Host -> Host)) (person : Person)
  : M World unit :=
  match f with
  | Some g => fun w => Done tt {| cells := cells w; lastValue := lastValue w;
                                  timer := timer w; host := g person (host w);
                                  appliedLog := appliedLog w |}
  | None => throw TypeError
  end.

Definition applyValue (value : jsstring) : M World unit :=
  last <- readLastValue ;;
  if negb (strictEq value last) then
    setAppliedQuery value ;;
    writeLastValue value
  else ret tt.

Definition debouncedApply (value : jsstring) : M World unit :=
  setTimer (Some (value, delay)).

Definition debouncedApply_cancel : M World unit := setTimer None.

Definition elapse (ms : N) : M World unit :=
  fun w =>
    match timer w with
    | Some (value, remaining) =>
        if (remaining <=? ms)%N then (setTimer None ;; applyValue value) w
        else setTimer (Some (value, (remaining - ms)%N)) w
    | None => Done tt w
    end.

Definition handleQueryChange (r : State) (value : jsstring) : M World unit :=
  setQuery value ;;
  (if negb (strictEq value (appliedQuery r)) then debouncedApply value
   else ret tt) ;;
  setSelectedItem None.

Definition handlePersonSelected (person : Person) : M World unit :=
  setSelectedItem (Some person) ;;
  setQuery (name person) ;;
  setAppliedQuery (name person) ;;
  setIsInputFocused false ;;
  if typeofFunction (onPersonSelected props)
  then callProp (onPersonSelected props) person
  else ret tt.

Definition filteredPeople (r : State) : list Person :=
  if isInputFocused r && strictEq (trim (appliedQuery r)) []
  then peopleFromServer
  else filter (fun person =>
                 includes (toLowerCase (name person))
                          (toLowerCase (trim (appliedQuery r))))
              peopleFromServer.

Record View : Type := mkView {
  inputValue : jsstring;
  suggestionItems : list Person;
  noSuggestionsMessage : bool
}.

Definition render (r : State) : View :=
  {| inputValue := query r;
     suggestionItems :=
       if isInputFocused r && negb (List.length (filteredPeople r) =? 0)
       then filteredPeople r else [];
     noSuggestionsMessage := (List.length (filteredPeople r) =? 0) |}.

Inductive Event : Type :=
| Change (value : jsstring)
| Focus
| Blur
| MouseDown (person : Person)
| Elapse (ms : N)
| Unmount.

Definition step (e : Event) : M World unit :=
  fun w =>
    match e with
    | Change value => handleQueryChange (cells w) value w
    | Focus => setIsInputFocused true w
    | Blur => setIsInputFocused false w
    | MouseDown person => handlePersonSelected person w
    | Elapse ms => elapse ms w
    | Unmount => debouncedApply_cancel w
    end.

Hypothesis toLowerCase_empty : toLowerCase [] = [].

Ltac open_mid :=
  unfold step, handleQueryChange, handlePersonSelected, elapse, applyValue,
    debouncedApply, debouncedApply_cancel, callProp, typeofFunction,
    setSelectedItem, setQuery, setAppliedQuery, setIsInputFocused,
    updateCells, readLastValue, writeLastValue, setTimer, bind, ret, throw
    in *.

(** This version clears the selection on every text change, also when the
    new text is the selected name. *)
Lemma mid_change_always_clears (w : World) (value : jsstring) :
  exists w', step (Change value) w = Done tt w'
             /\ selectedItem (cells w') = None.
Proof.
  open_mid. destruct (negb (strictEq value (appliedQuery (cells w))));
    eexists; split; reflexivity.
Qed.

(** The callback guard of this version: as in the richer one. *)
Lemma mid_selection_optional_callback (c : Person) (w : World) :
  exists w',
    handlePersonSelected c w = Done tt w'
    /\ cells w' = {| selectedItem := Some c; isInputFocused := false;
                     query := name c; appliedQuery := name c |}
    /\ match onPersonSelected props with
       | Some f => host w' = f c (host w)
       | None => host w' = host w
       end.
Proof.
  open_mid. destruct (onPersonSelected props); eexists; repeat split.
Qed.

(** The filter of this version: as in the richer one. *)
Lemma mid_filter_ignores_focus (r : State) :
  filteredPeople r =
  filter (fun person => includes (toLowerCase (name person))
                                 (toLowerCase (trim (appliedQuery r))))
         peopleFromServer.
Proof.
  unfold filteredPeople.
  destruct (isInputFocused r); simpl; [|reflexivity].
  destruct (strictEq_spec (trim (appliedQuery r)) []) as [Hblank|_];
    [|reflexivity].
  rewrite Hblank, toLowerCase_empty. symmetry. apply filter_all.
  intros person _. apply includes_empty.
Qed.

(** The notice of this version does not depend on the focus. *)
Lemma mid_notice_without_focus (r : State) :
  filteredPeople r = [] -> noSuggestionsMessage (render r) = true.
Proof. intros Hres. unfold render; simpl. rewrite Hres. reflexivity. Qed.

(** *** Further properties of the middle version *)

Fixpoint run (es : list Event) : M World unit :=
  match es with
  | [] => ret tt
  | e :: rest => step e ;; run rest
  end.

Lemma mid_run_cons (e : Event) (es : list Event) (w : World) :
  run (e :: es) w =
  match step e w with
  | Done _ w' => run es w'
  | Thrown x => Thrown x
  end.
Proof. reflexivity. Qed.

Lemma mid_change_runs (w : World) (value : jsstring) :
  step (Change value) w =
  Done tt {| cells := {| selectedItem := None;
                         isInputFocused := isInputFocused (cells w);
                         query := value;
                         appliedQuery := appliedQuery (cells w) |};
             lastValue := lastValue w;
             timer := if strictEq value (appliedQuery (cells w))
                      then timer w else Some (value, delay);
             host := host w; appliedLog := appliedLog w |}.
Proof.
  open_mid. destruct (strictEq value (appliedQuery (cells w))); reflexivity.
Qed.

Lemma mid_selection_runs (person : Person) (w : World) :
  step (MouseDown person) w =
  Done tt {| cells := {| selectedItem := Some person; isInputFocused := false;
                         query := name person; appliedQuery := name person |};
             lastValue := lastValue w; timer := timer w;
             host := match onPersonSelected props with
                     | Some f => f person (host w)
                     | None => host w
                     end;
             appliedLog := appliedLog w ++ [name person] |}.
Proof. open_mid. destruct (onPersonSelected props); reflexivity. Qed.

Lemma mid_elapse_fires (w : World) (value : jsstring) (remaining ms : N) :
  timer w = Some (value, remaining) -> (remaining <= ms)%N ->
  step (Elapse ms) w =
  Done tt {| cells := {| selectedItem := selectedItem (cells w);
                         isInputFocused := isInputFocused (cells w);
                         query := query (cells w);
                         appliedQuery :=
                           if strictEq value (lastValue w)
                           then appliedQuery (cells w) else value |};
             lastValue := value; timer := None; host := host w;
             appliedLog :=
               if strictEq value (lastValue w)
               then appliedLog w else appliedLog w ++ [value] |}.
Proof.
  intros Htimer Hdue. apply N.leb_le in Hdue.
  destruct w as [[sel foc q aq] lv tm h log]. simpl in *. subst tm.
  open_mid. simpl. rewrite Hdue. simpl.
  destruct (strictEq_spec value lv) as [->|Hne]; reflexivity.
Qed.

Ltac mid_fields :=
  cbv iota beta;
  cbn [cells lastValue timer host appliedLog selectedItem isInputFocused
       query appliedQuery].

(** X15. In the middle version, typing a text that differs from the applied
    query and from the last debounced value, and then waiting out the delay,
    commits that text: the field and the applied query agree, and the
    selection is cleared. *)
Theorem mid_typed_text_is_committed (w : World) (v : jsstring) (ms : N) :
  v <> appliedQuery (cells w) ->
  v <> lastValue w ->
  (delay <= ms)%N ->
  exists w',
    run [Change v; Elapse ms] w = Done tt w'
    /\ query (cells w') = v
    /\ appliedQuery (cells w') = v
    /\ selectedItem (cells w') = None
    /\ lastValue w' = v
    /\ appliedLog w' = appliedLog w ++ [v]
    /\ timer w' = None.
Proof.
  intros Happlied Hlast Hdue.
  rewrite mid_run_cons, mid_change_runs. mid_fields.
  rewrite (strictEq_neq _ _ Happlied), mid_run_cons.
  match goal with
  | |- context [step (Elapse ms) ?w1] =>
      rewrite (mid_elapse_fires w1 v delay ms eq_refl Hdue)
  end.
  mid_fields. rewrite (strictEq_neq _ _ Hlast).
  eexists. split; [reflexivity|]. repeat split.
Qed.

(** X16. In the middle version, a text change back to the applied query is
    not forwarded to the debounce, and does not cancel it either: a pending
    text [v] other than the last debounced value is still committed when its
    wait runs out, under a field that shows the old applied query. *)
Theorem mid_return_to_applied_keeps_pending_call
  (w : World) (v : jsstring) (remaining ms : N) :
  timer w = Some (v, remaining) ->
  v <> lastValue w ->
  (remaining <= ms)%N ->
  exists w1 w2,
    step (Change (appliedQuery (cells w))) w = Done tt w1
    /\ timer w1 = timer w
    /\ step (Elapse ms) w1 = Done tt w2
    /\ query (cells w2) = appliedQuery (cells w)
    /\ appliedQuery (cells w2) = v
    /\ appliedLog w2 = appliedLog w ++ [v].
Proof.
  intros Htimer Hlast Hdue. eexists. eexists.
  split; [apply mid_change_runs|]. mid_fields. rewrite strictEq_refl.
  split; [reflexivity|].
  split;
    [match goal with
     | |- step (Elapse ms) ?w1 = _ =>
         exact (mid_elapse_fires w1 v remaining ms Htimer Hdue)
     end|].
  mid_fields. rewrite (strictEq_neq _ _ Hlast). repeat split.
Qed.

(** X17. In the middle version a selection writes [appliedQuery] but not the
    last debounced value.  So after a selection, typing the last debounced
    value [v] again and waiting commits nothing: the applied query stays the
    selected name under a field that shows [v]. *)
Theorem mid_retyped_value_is_dropped_after_selection
  (w : World) (person : Person) (v : jsstring) (ms : N) :
  lastValue w = v ->
  v <> name person ->
  (delay <= ms)%N ->
  exists w',
    run [MouseDown person; Change v; Elapse ms] w = Done tt w'
    /\ query (cells w') = v
    /\ appliedQuery (cells w') = name person
    /\ selectedItem (cells w') = None
    /\ appliedLog w' = appliedLog w ++ [name person].
Proof.
  intros Hlast Hother Hdue.
  rewrite mid_run_cons, mid_selection_runs. mid_fields.
  rewrite mid_run_cons, mid_change_runs. mid_fields.
  rewrite (strictEq_neq _ _ Hother), mid_run_cons.
  match goal with
  | |- context [step (Elapse ms) ?w1] =>
      rewrite (mid_elapse_fires w1 v delay ms eq_refl Hdue)
  end.
  mid_fields. rewrite Hlast, strictEq_refl.
  eexists. split; [reflexivity|]. repeat split.
Qed.

(** X18. What the middle version shows.  Every suggestion row is a person of
    the roster whose lower-cased name contains the lower-cased trimmed
    applied query, in roster order, and rows appear only while the input is
    focused.  The notice appears exactly when the filter result is empty,
    focused or not, and never together with rows. *)
Theorem mid_rendered_rows_match (r : State) :
  (forall person,
     In person (suggestionItems (render r)) ->
     In person peopleFromServer
     /\ Substring (toLowerCase (trim (appliedQuery r)))
                  (toLowerCase (name person)))
  /\ Subseq (suggestionItems (render r)) peopleFromServer
  /\ (suggestionItems (render r) <> [] -> isInputFocused r = true)
  /\ (noSuggestionsMessage (render r) = true <-> filteredPeople r = [])
  /\ (noSuggestionsMessage (render r) = true ->
      suggestionItems (render r) = []).
Proof.
  assert (Hrows : suggestionItems (render r) =
                  if isInputFocused r then filteredPeople r else []).
  { unfold render. simpl.
    destruct (filteredPeople r), (isInputFocused r); reflexivity. }
  assert (Hnotice : noSuggestionsMessage (render r) = true <->
                    filteredPeople r = []).
  { unfold render. simpl.
    destruct (filteredPeople r); simpl; split; congruence. }
  rewrite Hrows, Hnotice. clear Hrows Hnotice.
  rewrite mid_filter_ignores_focus.
  destruct (isInputFocused r).
  - split; [|split; [apply filter_Subseq|split; [reflexivity|split]]].
    + intros person Hin. apply filter_In in Hin. destruct Hin as [Hin Htest].
      split; [exact Hin | apply includes_spec, Htest].
    + reflexivity.
    + tauto.
  - split; [intros person []|]. split; [apply Subseq_nil_l|].
    split; [congruence|]. split; [reflexivity | reflexivity].
Qed.

(** The persons selected in a sequence of events, in order. *)
Fixpoint selections (es : list Event) : list Person :=
  match es with
  | [] => []
  | MouseDown person :: rest => person :: selections rest
  | _ :: rest => selections rest
  end.

Lemma mid_step_host (e : Event) (w : World) :
  exists w',
    step e w = Done tt w'
    /\ host w' =
       match e, onPersonSelected props with
       | MouseDown person, Some f => f person (host w)
       | _, _ => host w
       end.
Proof.
  destruct e as [value| | |person|ms|].
  - eexists. split; [apply mid_change_runs | reflexivity].
  - eexists. split; reflexivity.
  - eexists. split; reflexivity.
  - eexists. split; [apply mid_selection_runs|]. simpl.
    destruct (onPersonSelected props); reflexivity.
  - simpl. unfold elapse. destruct (timer w) as [[value remaining]|].
    + destruct (remaining <=? ms)%N.
      * open_mid. simpl. destruct (negb (strictEq value (lastValue w)));
          eexists; split; reflexivity.
      * eexists. split; reflexivity.
    + eexists. split; reflexivity.
  - eexists. split; reflexivity.
Qed.

(** X23. In the middle version, a callback is taken to return: it is a
    function on the embedding context.  With such a callback, or with none,
    no sequence of events ends in a throw; the handlers themselves never
    throw, and the absent callback is never called.  With a callback the
    embedding context ends as the callback applied once to each selected
    person, in the order of the selections, and to nothing else; without
    one it is left as it was. *)
Theorem mid_notifications_follow_selections (es : list Event) :
  forall w, exists w',
    run es w = Done tt w'
    /\ host w' =
       match onPersonSelected props with
       | Some f => fold_left (fun h person => f person h) (selections es)
                             (host w)
       | None => host w
       end.
Proof.
  induction es as [|e es IH]; intros w.
  - exists w. split; [reflexivity|].
    destruct (onPersonSelected props); reflexivity.
  - rewrite mid_run_cons. destruct (mid_step_host e w) as (w1 & Hstep & Hhost).
    rewrite Hstep. destruct (IH w1) as (w' & Hrun & Hend). exists w'.
    split; [exact Hrun|]. rewrite Hend, Hhost.
    destruct e as [value| | |person|ms|]; simpl selections;
      destruct (onPersonSelected props); reflexivity.
Qed.

End Component.

(** *** The properties of the middle version at concrete inputs *)

Definition quietProps : @Props (list Person) :=
  {| debounceDelay := None; onPersonSelected := None |}.

(** "a" typed into the fresh component, its debounced call pending. *)
Definition typingA : @World (list Person) :=
  {| cells := {| selectedItem := None; isInputFocused := false;
                 query := str "a"; appliedQuery := [] |};
     lastValue := []; timer := Some (str "a", 300%N); host := [];
     appliedLog := [] |}.

(** "al" typed and committed. *)
Definition committedAl : @World (list Person) :=
  {| cells := {| selectedItem := None; isInputFocused := false;
                 query := str "al"; appliedQuery := str "al" |};
     lastValue := str "al"; timer := None; host := [];
     appliedLog := [str "al"] |}.

Lemma mid_typed_text_is_committed_witness :
  str "al" <> appliedQuery (cells (mount (Host := list Person) []))
  /\ str "al" <> lastValue (mount (Host := list Person) [])
  /\ (delay quietProps <= 300)%N
  /\ exists w',
       run quietProps [Change (str "al"); Elapse 300] (mount []) = Done tt w'
       /\ query (cells w') = str "al"
       /\ appliedQuery (cells w') = str "al".
Proof.
  assert (Happlied : str "al" <>
                     appliedQuery (cells (mount (Host := list Person) [])))
    by discriminate.
  assert (Hlast : str "al" <> lastValue (mount (Host := list Person) []))
    by discriminate.
  assert (Hdue : (delay quietProps <= 300)%N) by discriminate.
  split; [exact Happlied|]. split; [exact Hlast|]. split; [exact Hdue|].
  destruct (mid_typed_text_is_committed quietProps (mount []) (str "al")
              300%N Happlied Hlast Hdue)
    as (w' & Hrun & Hquery & Hcommitted & _).
  exists w'. split; [exact Hrun|]. split; [exact Hquery | exact Hcommitted].
Defined.

Lemma mid_return_to_applied_keeps_pending_call_witness :
  timer typingA = Some (str "a", 300%N)
  /\ str "a" <> lastValue typingA
  /\ (300 <= 300)%N
  /\ exists w1 w2,
       step quietProps (Change []) typingA = Done tt w1
       /\ step quietProps (Elapse 300) w1 = Done tt w2
       /\ query (cells w2) = []
       /\ appliedQuery (cells w2) = str "a".
Proof.
  assert (Hlast : str "a" <> lastValue typingA) by discriminate.
  assert (Hdue : (300 <= 300)%N) by discriminate.
  split; [reflexivity|]. split; [exact Hlast|]. split; [exact Hdue|].
  destruct (mid_return_to_applied_keeps_pending_call quietProps typingA
              (str "a") 300%N 300%N eq_refl Hlast Hdue)
    as (w1 & w2 & Hchange & _ & Hfire & Hquery & Happlied & _).
  exists w1, w2. split; [exact Hchange|]. split; [exact Hfire|].
  split; [exact Hquery | exact Happlied].
Defined.

Lemma mid_retyped_value_is_dropped_after_selection_witness :
  lastValue committedAl = str "al"
  /\ str "al" <> name alice
  /\ (delay quietProps <= 300)%N
  /\ exists w',
       run quietProps [MouseDown alice; Change (str "al"); Elapse 300]
           committedAl = Done tt w'
       /\ query (cells w') = str "al"
       /\ appliedQuery (cells w') = str "Alice".
Proof.
  assert (Hother : str "al" <> name alice) by discriminate.
  assert (Hdue : (delay quietProps <= 300)%N) by discriminate.
  split; [reflexivity|]. split; [exact Hother|]. split; [exact Hdue|].
  destruct (mid_retyped_value_is_dropped_after_selection quietProps
              committedAl alice (str "al") 300%N eq_refl Hother Hdue)
    as (w' & Hrun & Hquery & Happlied & _).
  exists w'. split; [exact Hrun|]. split; [exact Hquery | exact Happlied].
Defined.

Definition focusedOnAl : State :=
  {| selectedItem := None; isInputFocused := true; query := str "al";
     appliedQuery := str "al" |}.

Lemma mid_rendered_rows_match_witness :
  toLowerCaseAscii [] = []
  /\ Subseq (suggestionItems (render toLowerCaseAscii roster focusedOnAl))
            roster
  /\ suggestionItems (render toLowerCaseAscii roster focusedOnAl) = [alice].
Proof.
  split; [reflexivity|]. split; [|reflexivity].
  exact (proj1 (proj2 (mid_rendered_rows_match toLowerCaseAscii roster
                         eq_refl focusedOnAl))).
Defined.

(** *** Where the claim on the selection, as the spec words it, fails *)

Definition aliceRetyped : @World (list Person) :=
  {| cells := {| selectedItem := None; isInputFocused := false;
                 query := str " Alice "; appliedQuery := str "Alice" |};
     lastValue := []; timer := Some (str " Alice ", 300%N); host := [];
     appliedLog := [str "Alice"] |}.

(** C5 as worded keeps the selection when the trimmed new text equals the
    trimmed selected name.  In this version Alice is selected and the field
    is changed to " Alice ", which trims to her name: the selection is
    cleared all the same. *)
Definition aliceChosen : @World (list Person) :=
  {| cells := {| selectedItem := Some alice; isInputFocused := false;
                 query := str "Alice"; appliedQuery := str "Alice" |};
     lastValue := []; timer := None; host := [];
     appliedLog := [str "Alice"] |}.

Lemma mid_selection_claim_counterexample :
  step quietProps (MouseDown alice) (mount []) = Done tt aliceChosen
  /\ selectedItem (cells aliceChosen) = Some alice
  /\ trim (str " Alice ") = trim (name alice)
  /\ step quietProps (Change (str " Alice ")) aliceChosen =
       Done tt aliceRetyped
  /\ selectedItem (cells aliceRetyped) = None.
Proof.
  split; [vm_compute; reflexivity|]. split; [reflexivity|].
  split; [reflexivity|]. split; [vm_compute; reflexivity | reflexivity].
Qed.

End Mid.

(** ** The simplest version ([src/src/App.tsx]) *)

Module Simple.
Section Component.

Variable toLowerCase : jsstring -> jsstring.
Variable peopleFromServer : list Person.

Record Props : Type := mkProps {
  debounceDelay : option N
}.

Variable props : Props.

Definition delay : N :=
  match debounceDelay props with
  | Some ms => ms
  | None => 300%N
  end.

Record State : Type := mkState {
  selectedItem : option Person;
  isInputFocused : bool;
  query : jsstring;
  appliedQuery : jsstring
}.

Record World : Type := mkWorld {
  cells : State;
  timer : option (jsstring * N);
  appliedLog : list jsstring
}.

Definition initialState : State :=
  {| selectedItem := None; isInputFocused := false; query := [];
     appliedQuery := [] |}.

Definition mount : World :=
  {| cells := initialState; timer := None; appliedLog := [] |}.

Definition updateCells (f : State -> State) : M World unit :=
  fun w => Done tt {| cells := f (cells w); timer := timer w;
                      appliedLog := appliedLog w |}.

Definition setSelectedItem (v : option Person) : M World unit :=
  updateCells (fun s =>
    {| selectedItem := v; isInputFocused := isInputFocused s; query := query s;
       appliedQuery := appliedQuery s |}).

Definition setIsInputFocused (v : bool) : M World unit :=
  updateCells (fun s =>
    {| selectedItem := selectedItem s; isInputFocused := v; query := query s;
       appliedQuery := appliedQuery s |}).

Definition setQuery (v : jsstring) : M World unit :=
  updateCells (fun s =>
    {| selectedItem := selectedItem s; isInputFocused := isInputFocused s;
       query := v; appliedQuery := appliedQuery s |}).

Definition setAppliedQuery (v : jsstring) : M World unit :=
  fun w =>
    let s := cells w in
    Done tt {| cells := {| selectedItem := selectedItem s;
                           isInputFocused := isInputFocused s;
                           query := query s; appliedQuery := v |};
               timer := timer w; appliedLog := appliedLog w ++ [v] |}.

Definition setTimer (t : option (jsstring * N)) : M World unit :=
  fun w => Done tt {| cells := cells w; timer := t;
                      appliedLog := appliedLog w |}.

(** [applyQuery = debounce(setAppliedQuery, debounceDelay)] *)
Definition applyQuery (value : jsstring) : M World unit :=
  setTimer (Some (value, delay)).

Definition elapse (ms : N) : M World unit :=
  fun w =>
    match timer w with
    | Some (value, remaining) =>
        if (remaining <=? ms)%N then (setTimer None ;; setAppliedQuery value) w
        else setTimer (Some (value, (remaining - ms)%N)) w
    | None => Done tt w
    end.

Definition handleQueryChange (value : jsstring) : M World unit :=
  setQuery value ;;
  applyQuery value ;;
  setSelectedItem None.

(** The [onMouseDown] handler of a suggestion. *)
Definition onMouseDown (person : Person) : M World unit :=
  setSelectedItem (Some person) ;;
  setQuery (name person) ;;
  setIsInputFocused false.

Definition filteredPeople (r : State) : list Person :=
  filter (fun person =>
            includes (toLowerCase (name person)) (toLowerCase (appliedQuery r)))
         peopleFromServer.

Record View : Type := mkView {
  inputValue : jsstring;
  suggestionItems : list Person;
  noSuggestionsMessage : bool
}.

Definition render (r : State) : View :=
  {| inputValue := query r;
     suggestionItems :=
       if isInputFocused r && negb (List.length (filteredPeople r) =? 0)
       then filteredPeople r else [];
     noSuggestionsMessage := (List.length (filteredPeople r) =? 0) |}.

Inductive Event : Type :=
| Change (value : jsstring)
| Focus
| Blur
| MouseDown (person : Person)
| Elapse (ms : N).

Definition step (e : Event) : M World unit :=
  fun w =>
    match e with
    | Change value => handleQueryChange value w
    | Focus => setIsInputFocused true w
    | Blur => setIsInputFocused false w
    | MouseDown person => onMouseDown person w
    | Elapse ms => elapse ms w
    end.

(** In this version a selection leaves [appliedQuery] and the pending
    debounced call as they are; there is no callback. *)
Lemma simple_selection_keeps_appliedQuery (c : Person) (w : World) :
  step (MouseDown c) w =
  Done tt {| cells := {| selectedItem := Some c; isInputFocused := false;
                         query := name c;
                         appliedQuery := appliedQuery (cells w) |};
             timer := timer w; appliedLog := appliedLog w |}.
Proof. reflexivity. Qed.

(** In this version every text change, also to an empty text, goes through
    the debounce; nothing is written to [appliedQuery] in the handler. *)
Lemma simple_change_is_debounced (value : jsstring) (w : World) :
  step (Change value) w =
  Done tt {| cells := {| selectedItem := None;
                         isInputFocused := isInputFocused (cells w);
                         query := value;
                         appliedQuery := appliedQuery (cells w) |};
             timer := Some (value, delay); appliedLog := appliedLog w |}.
Proof. reflexivity. Qed.

(** In this version the notice does not depend on the focus. *)
Lemma simple_notice_without_focus (r : State) :
  filteredPeople r = [] -> noSuggestionsMessage (render r) = true.
Proof. intros Hres. unfold render; simpl. rewrite Hres. reflexivity. Qed.

(** *** Further properties of the simplest version *)

Fixpoint run (es : list Event) : M World unit :=
  match es with
  | [] => ret tt
  | e :: rest => step e ;; run rest
  end.

(** A burst of typing: a first text, then texts each [gap] ms after the one
    before. *)
Fixpoint burst (first : jsstring) (rest : list (N * jsstring)) : list Event :=
  match rest with
  | [] => [Change first]
  | (gap, value) :: rest' => Change first :: Elapse gap :: burst value rest'
  end.

Fixpoint lastTyped (first : jsstring) (rest : list (N * jsstring)) : jsstring :=
  match rest with
  | [] => first
  | (_, value) :: rest' => lastTyped value rest'
  end.

Hypothesis toLowerCase_empty : toLowerCase [] = [].

Lemma simple_run_cons (e : Event) (es : list Event) (w : World) :
  run (e :: es) w =
  match step e w with
  | Done _ w' => run es w'
  | Thrown x => Thrown x
  end.
Proof. reflexivity. Qed.

Lemma simple_run_app (es1 es2 : list Event) (w : World) :
  run (es1 ++ es2) w =
  match run es1 w with
  | Done _ w' => run es2 w'
  | Thrown x => Thrown x
  end.
Proof.
  revert w; induction es1 as [|e es1 IH]; intros w.
  - reflexivity.
  - simpl app. rewrite !simple_run_cons.
    destruct (step e w); [apply IH | reflexivity].
Qed.

Lemma simple_elapse_fires (w : World) (value : jsstring) (remaining ms : N) :
  timer w = Some (value, remaining) -> (remaining <= ms)%N ->
  step (Elapse ms) w =
  Done tt {| cells := {| selectedItem := selectedItem (cells w);
                         isInputFocused := isInputFocused (cells w);
                         query := query (cells w); appliedQuery := value |};
             timer := None; appliedLog := appliedLog w ++ [value] |}.
Proof.
  intros Htimer Hdue. apply N.leb_le in Hdue.
  simpl. unfold elapse. rewrite Htimer, Hdue. reflexivity.
Qed.

Lemma simple_elapse_waits (w : World) (value : jsstring) (remaining ms : N) :
  timer w = Some (value, remaining) -> (ms < remaining)%N ->
  step (Elapse ms) w =
  Done tt {| cells := cells w; timer := Some (value, (remaining - ms)%N);
             appliedLog := appliedLog w |}.
Proof.
  intros Htimer Hearly. apply N.leb_gt in Hearly.
  simpl. unfold elapse. rewrite Htimer, Hearly. reflexivity.
Qed.

Ltac simple_fields :=
  cbv iota beta;
  cbn [cells timer appliedLog selectedItem isInputFocused query appliedQuery].

Lemma simple_burst_pending (rest : list (N * jsstring)) :
  forall (first : jsstring) (w : World),
    Forall (fun gv => (fst gv < delay)%N) rest ->
    exists w',
      run (burst first rest) w = Done tt w'
      /\ timer w' = Some (lastTyped first rest, delay)
      /\ query (cells w') = lastTyped first rest
      /\ selectedItem (cells w') = None
      /\ appliedLog w' = appliedLog w
      /\ appliedQuery (cells w') = appliedQuery (cells w).
Proof.
  induction rest as [|[gap value] rest IH]; intros first w Hrest.
  - cbn [burst lastTyped]. rewrite simple_run_cons, simple_change_is_debounced.
    simple_fields. eexists. split; [reflexivity|]. repeat split.
  - apply Forall_cons_iff in Hrest. destruct Hrest as [Hgap Hrest'].
    cbn [fst] in Hgap. cbn [burst lastTyped].
    rewrite simple_run_cons, simple_change_is_debounced. simple_fields.
    rewrite simple_run_cons.
    match goal with
    | |- context [step (Elapse gap) ?w1] =>
        rewrite (simple_elapse_waits w1 first delay gap eq_refl Hgap)
    end.
    simple_fields.
    match goal with
    | |- context [run (burst value rest) ?w1] =>
        destruct (IH value w1 Hrest')
          as (w' & Hrun & Htimer & Hquery & Hsel & Hlog & Happlied)
    end.
    exists w'. repeat split; assumption.
Qed.

(** X19. In the simplest version every burst of text changes, empty texts
    included, each less than the delay after the one before, followed by a
    quiet period of at least the delay, writes [appliedQuery] exactly once,
    with the last text typed: field and applied query then agree, no call is
    pending and no item is selected. *)
Theorem simple_debounce_coalesces
  (w : World) (first : jsstring) (rest : list (N * jsstring)) (quiet : N) :
  Forall (fun gv => (fst gv < delay)%N) rest ->
  (delay <= quiet)%N ->
  exists w',
    run (burst first rest ++ [Elapse quiet]) w = Done tt w'
    /\ appliedLog w' = appliedLog w ++ [lastTyped first rest]
    /\ appliedQuery (cells w') = lastTyped first rest
    /\ query (cells w') = lastTyped first rest
    /\ selectedItem (cells w') = None
    /\ timer w' = None.
Proof.
  intros Hrest Hquiet.
  destruct (simple_burst_pending rest first w Hrest)
    as (w1 & Hrun & Htimer & Hquery & Hsel & Hlog & Happlied).
  rewrite simple_run_app, Hrun, simple_run_cons.
  rewrite (simple_elapse_fires w1 _ _ quiet Htimer Hquiet). simple_fields.
  eexists. split; [reflexivity|]. simple_fields.
  rewrite Hlog, Hquery, Hsel. repeat split.
Qed.

(** X20. In the simplest version a selection writes the field and the
    selected item only: the list stays what it was, and a text pending in
    the debounce at that moment is still written to [appliedQuery] when its
    wait runs out, under a field and a title that show the selected
    person. *)
Theorem simple_selection_keeps_pending_call (w : World) (person : Person) :
  exists w1,
    step (MouseDown person) w = Done tt w1
    /\ filteredPeople (cells w1) = filteredPeople (cells w)
    /\ timer w1 = timer w
    /\ (forall v remaining ms,
          timer w = Some (v, remaining) -> (remaining <= ms)%N ->
          exists w2,
            step (Elapse ms) w1 = Done tt w2
            /\ selectedItem (cells w2) = Some person
            /\ query (cells w2) = name person
            /\ appliedQuery (cells w2) = v).
Proof.
  eexists. split; [apply simple_selection_keeps_appliedQuery|].
  split; [reflexivity|]. split; [reflexivity|].
  intros v remaining ms Htimer Hdue. eexists.
  split;
    [match goal with
     | |- step (Elapse ms) ?w1 = _ =>
         exact (simple_elapse_fires w1 v remaining ms Htimer Hdue)
     end|].
  repeat split.
Qed.

(** X21. The filter of the simplest version: an empty applied query lists
    the whole roster, and when the lower-cased applied query of one render
    is contained in that of another, the list of the second is a selection,
    in order, of the list of the first. *)
Theorem simple_filter_narrows (r1 r2 : State) :
  (appliedQuery r1 = [] -> filteredPeople r1 = peopleFromServer)
  /\ (Substring (toLowerCase (appliedQuery r1)) (toLowerCase (appliedQuery r2))
      -> Subseq (filteredPeople r2) (filteredPeople r1)).
Proof.
  unfold filteredPeople. split.
  - intros ->. rewrite toLowerCase_empty. apply filter_all.
    intros person _. apply includes_empty.
  - intros Hsub. apply filter_Subseq_mono. intros person Hmatch.
    apply (includes_trans _ _ _ Hmatch). apply includes_spec, Hsub.
Qed.

(** X22. What the simplest version shows.  Every suggestion row is a person
    of the roster whose lower-cased name contains the lower-cased applied
    query (not trimmed), in roster order, and rows appear only while the
    input is focused.  The notice appears exactly when the filter result is
    empty, focused or not, and never together with rows. *)
Theorem simple_rendered_rows_match (r : State) :
  (forall person,
     In person (suggestionItems (render r)) ->
     In person peopleFromServer
     /\ Substring (toLowerCase (appliedQuery r)) (toLowerCase (name person)))
  /\ Subseq (suggestionItems (render r)) peopleFromServer
  /\ (suggestionItems (render r) <> [] -> isInputFocused r = true)
  /\ (noSuggestionsMessage (render r) = true <-> filteredPeople r = [])
  /\ (noSuggestionsMessage (render r) = true ->
      suggestionItems (render r) = []).
Proof.
  assert (Hrows : suggestionItems (render r) =
                  if isInputFocused r then filteredPeople r else []).
  { unfold render. simpl.
    destruct (filteredPeople r), (isInputFocused r); reflexivity. }
  assert (Hnotice : noSuggestionsMessage (render r) = true <->
                    filteredPeople r = []).
  { unfold render. simpl.
    destruct (filteredPeople r); simpl; split; congruence. }
  rewrite Hrows, Hnotice. clear Hrows Hnotice.
  unfold filteredPeople.
  destruct (isInputFocused r).
  - split; [|split; [apply filter_Subseq|split; [reflexivity|split]]].
    + intros person Hin. apply filter_In in Hin. destruct Hin as [Hin Htest].
      split; [exact Hin | apply includes_spec, Htest].
    + reflexivity.
    + tauto.
  - split; [intros person []|]. split; [apply Subseq_nil_l|].
    split; [congruence|]. split; reflexivity.
Qed.

End Component.

(** In this version the applied query is not trimmed: a query of one space
    matches no name of the small roster. *)
Example simple_filter_is_untrimmed :
  filteredPeople toLowerCaseAscii roster
    {| selectedItem := None; isInputFocused := true; query := str " ";
       appliedQuery := str " " |} = [].
Proof. reflexivity. Qed.

(** *** The properties of the simplest version at concrete inputs *)

Definition defaultProps : Props := {| debounceDelay := None |}.

Lemma simple_short_gap :
  Forall (fun gv => (fst gv < delay defaultProps)%N) [(100%N, @nil N)].
Proof. constructor; [reflexivity | constructor]. Defined.

Lemma simple_debounce_coalesces_witness :
  Forall (fun gv => (fst gv < delay defaultProps)%N) [(100%N, @nil N)]
  /\ (delay defaultProps <= 300)%N
  /\ exists w',
       run defaultProps (burst (str "a") [(100%N, [])] ++ [Elapse 300])
           mount = Done tt w'
       /\ appliedLog w' = [[]]
       /\ query (cells w') = [].
Proof.
  assert (Hquiet : (delay defaultProps <= 300)%N) by discriminate.
  split; [exact simple_short_gap|]. split; [exact Hquiet|].
  destruct (simple_debounce_coalesces defaultProps mount (str "a")
              [(100%N, [])] 300%N simple_short_gap Hquiet)
    as (w' & Hrun & Hlog & _ & Hquery & _).
  exists w'. split; [exact Hrun|]. split; [exact Hlog | exact Hquery].
Defined.

Definition simpleOnAl : State :=
  {| selectedItem := None; isInputFocused := true; query := str "al";
     appliedQuery := str "al" |}.

Definition simpleOnAli : State :=
  {| selectedItem := None; isInputFocused := true; query := str "Ali";
     appliedQuery := str "Ali" |}.

Lemma simple_al_in_ali :
  Substring (toLowerCaseAscii (appliedQuery simpleOnAl))
            (toLowerCaseAscii (appliedQuery simpleOnAli)).
Proof. apply includes_spec. reflexivity. Defined.

Lemma simple_filter_narrows_witness :
  toLowerCaseAscii [] = []
  /\ Substring (toLowerCaseAscii (appliedQuery simpleOnAl))
               (toLowerCaseAscii (appliedQuery simpleOnAli))
  /\ Subseq (filteredPeople toLowerCaseAscii roster simpleOnAli)
            (filteredPeople toLowerCaseAscii roster simpleOnAl).
Proof.
  split; [reflexivity|]. split; [exact simple_al_in_ali|].
  exact (proj2 (simple_filter_narrows toLowerCaseAscii roster eq_refl
                  simpleOnAl simpleOnAli) simple_al_in_ali).
Defined.

(** *** Where claims worded for all versions fail on this one *)

Definition paddedAlApplied : World :=
  {| cells := {| selectedItem := None; isInputFocused := true;
                 query := str " al "; appliedQuery := str " al " |};
     timer := None; appliedLog := [str " al "] |}.

Definition spaceApplied : World :=
  {| cells := {| selectedItem := None; isInputFocused := true;
                 query := str " "; appliedQuery := str " " |};
     timer := None; appliedLog := [str " "] |}.

(** C1 as worded lists exactly the persons whose lower-cased name contains
    the lower-cased trimmed query, and the whole roster for a focused input
    and a query that trims to empty.  In this version, focused: the applied
    query " al " trims to "al", which "alice" contains, yet Alice is not
    listed; and the applied query " " trims to empty, yet the list is not
    the roster. *)
Lemma simple_filter_claim_counterexample :
  run defaultProps [Focus; Change (str " al "); Elapse 300] mount =
    Done tt paddedAlApplied
  /\ In alice roster
  /\ Substring (toLowerCaseAscii (trim (appliedQuery (cells paddedAlApplied))))
               (toLowerCaseAscii (name alice))
  /\ ~ In alice (filteredPeople toLowerCaseAscii roster (cells paddedAlApplied))
  /\ run defaultProps [Focus; Change (str " "); Elapse 300] mount =
       Done tt spaceApplied
  /\ isInputFocused (cells spaceApplied) = true
  /\ trim (appliedQuery (cells spaceApplied)) = []
  /\ filteredPeople toLowerCaseAscii roster (cells spaceApplied) <> roster.
Proof.
  split; [vm_compute; reflexivity|]. split; [left; reflexivity|].
  split; [apply includes_spec; reflexivity|].
  split; [intros []|].
  split; [vm_compute; reflexivity|]. split; [reflexivity|].
  split; [reflexivity | discriminate].
Qed.

Definition aliceChosenOverAl : World :=
  {| cells := {| selectedItem := Some alice; isInputFocused := false;
                 query := str "Alice"; appliedQuery := str "al" |};
     timer := None; appliedLog := [str "al"] |}.

(** C2 as worded sets the applied query to the selected name and calls the
    callback.  In this version, after "al" is typed and applied, selecting
    Alice leaves the applied query "al"; the component takes no callback
    prop at all. *)
Lemma simple_selection_claim_counterexample :
  run defaultProps [Focus; Change (str "al"); Elapse 300; MouseDown alice]
      mount = Done tt aliceChosenOverAl
  /\ selectedItem (cells aliceChosenOverAl) = Some alice
  /\ query (cells aliceChosenOverAl) = name alice
  /\ appliedQuery (cells aliceChosenOverAl) = str "al"
  /\ appliedQuery (cells aliceChosenOverAl) <> name alice.
Proof.
  split; [vm_compute; reflexivity|]. split; [reflexivity|].
  split; [reflexivity|]. split; [reflexivity | discriminate].
Qed.

Definition clearedButApplied : World :=
  {| cells := {| selectedItem := None; isInputFocused := true; query := [];
                 appliedQuery := str "a" |};
     timer := Some ([], 300%N); appliedLog := [str "a"] |}.

(** C3 as worded empties the applied query in the very event that clears
    the field.  In this version, after "a" is typed and applied, clearing
    the field leaves the applied query "a" and arms the debounce with the
    empty text. *)
Lemma simple_clearing_claim_counterexample :
  run defaultProps [Focus; Change (str "a"); Elapse 300; Change []] mount =
    Done tt clearedButApplied
  /\ trim (query (cells clearedButApplied)) = []
  /\ appliedQuery (cells clearedButApplied) = str "a"
  /\ appliedQuery (cells clearedButApplied) <> []
  /\ timer clearedButApplied = Some ([], delay defaultProps).
Proof.
  split; [vm_compute; reflexivity|]. split; [reflexivity|].
  split; [reflexivity|]. split; [discriminate | reflexivity].
Qed.

Definition blurredOnZzz : World :=
  {| cells := {| selectedItem := None; isInputFocused := false;
                 query := str "zzz"; appliedQuery := str "zzz" |};
     timer := None; appliedLog := [str "zzz"] |}.

(** C6 as worded shows neither rows nor the notice while the dropdown is
    closed.  In this version, where the dropdown is open exactly while the
    input is focused, "zzz" is typed and applied and the input is blurred:
    the notice is on screen. *)
Lemma simple_render_claim_counterexample :
  run defaultProps [Focus; Change (str "zzz"); Elapse 300; Blur] mount =
    Done tt blurredOnZzz
  /\ isInputFocused (cells blurredOnZzz) = false
  /\ suggestionItems (render toLowerCaseAscii roster (cells blurredOnZzz)) = []
  /\ noSuggestionsMessage
       (render toLowerCaseAscii roster (cells blurredOnZzz)) = true.
Proof.
  split; [vm_compute; reflexivity|]. split; [reflexivity|].
  split; reflexivity.
Qed.

End Simple.
